(** * KLF200 bridge: position codec, device registry, gateway session and
      bus-command parsing

    A shallow embedding of the TypeScript sources of the plugin daemon:

    - [src/types/index.ts]: [getDeviceType], [klfPositionToPercent],
      [percentToKlfPosition], and [getStatusInfo] of its later version;
    - [src/lib/device-registry.ts]: the [DeviceRegistry] class;
    - [src/lib/klf-connection.ts]: the [KLFConnection] class;
    - [src/lib/mqtt-bridge.ts]: the [MQTTBridge] class;
    - [src/daemon.ts]: the event wiring and the command handlers;
    - [src/lib/config.ts]: [validateConfig];
    - [src/lib/logger.ts]: [parseSize].

    Conventions.  A JavaScript [number] that the code only ever uses as an
    integer (node ids, counters, millisecond delays) is a [Z].  The two
    percentages that [hasStateChanged] compares are a [number]: the integer
    that [Math.round] produced, [NaN] when the actuator's position is not
    known, or [null] when the state was read back from the snapshot file.
    A gateway position is a rational [Q] in module [Codec] (exact
    arithmetic) and an IEEE binary64 [float] in module [Binary64] (the
    arithmetic the interpreter really performs).  A [Map] keyed by numbers
    is a [gmap Z].  Mutable objects are threaded as explicit state; emitted
    events and issued calls are returned as lists. *)

From Stdlib Require Import ZArith QArith Qround Qminmax Qabs Lia Lqa.
From Stdlib Require Import PrimFloat SpecFloat FloatOps Uint63.
From Stdlib Require Import Ascii String.
From stdpp Require Import base gmap list strings pretty.

Local Open Scope Z_scope.
#[local] Set Warnings "-clear-no-such-hyp".

(* ===================================================================== *)
(** * Data model ([src/types/index.ts]) *)
(* ===================================================================== *)

Inductive DeviceType :=
  WINDOW | BLIND | SHUTTER | AWNING | GARAGE | GATE | LOCK | UNKNOWN.

(** The values of the fields [position] and [targetPosition] at run time:
    the integer [Math.round] returned, [NaN] when it was applied to [NaN],
    and [null], which is what [JSON.parse] reads where [JSON.stringify]
    wrote a [NaN]. *)
Inductive number :=
  | Num (z : Z)
  | NaN
  | Null.

(** [a !== b] on two such values: [NaN] differs from every value, itself
    included. *)
Definition strict_neq (a b : number) : bool :=
  match a, b with
  | Num x, Num y => negb (x =? y)
  | Null, Null => false
  | _, _ => true
  end.

(** [String(x)]. *)
Definition number_text (x : number) : string :=
  match x with
  | Num z => pretty z
  | NaN => "NaN"
  | Null => "null"
  end.

(** [interface DeviceState].  [lastUpdate] is the [Date] as milliseconds
    since the epoch. *)
Record DeviceState := mkDeviceState {
  nodeId : Z;
  name : string;
  type : DeviceType;
  position : number;
  targetPosition : number;
  moving : bool;
  online : bool;
  error : option string;
  limitationMin : Z;
  limitationMax : Z;
  serialNumber : string;
  productType : Z;
  lastUpdate : Z
}.

(** [interface SceneState]. *)
Record SceneState := mkSceneState {
  sceneId : Z;
  sceneName : string;
  productCount : Z
}.

(** [interface DeviceStateChangeEvent]; the record's [nodeId] field is
    [ev_nodeId] here. *)
Record DeviceStateChangeEvent := mkChange {
  ev_nodeId : Z;
  previousState : option DeviceState;
  currentState : DeviceState
}.

(** [ACTUATOR_TYPE_MAP[actuatorType] || DeviceType.UNKNOWN]. *)
Definition getDeviceType (actuatorType : Z) : DeviceType :=
  match actuatorType with
  | 1 | 10 | 17 | 18 | 19 => BLIND
  | 2 | 13 | 24 => SHUTTER
  | 3 | 16 => AWNING
  | 4 | 20 => WINDOW
  | 5 | 8 => GARAGE
  | 7 => GATE
  | 9 => LOCK
  | _ => UNKNOWN
  end.

(* ===================================================================== *)
(** * The position codec in exact arithmetic *)
(* ===================================================================== *)

(** The codec as its formulas read over the rationals.  The interpreter
    evaluates the same formulas on doubles, see [Binary64]; on the
    positions of the gateway's scale the two agree except at ties of the
    rounding, where the doubles may give one less. *)

Module Codec.

(** [Math.round]: the nearest integer, ties towards plus infinity. *)
Definition Math_round (x : Q) : Z := Qfloor (x + (1 # 2)).

(** [return Math.round((1 - klfPosition) * 100);] *)
Definition klfPositionToPercent (klfPosition : Q) : Z :=
  Math_round ((1 - klfPosition) * 100).

(** The same on a position that may be [NaN], written [None]:
    [Math.round((1 - NaN) * 100)] is [NaN]. *)
Definition klfPositionToPercent_or_NaN (klfPosition : option Q) : number :=
  match klfPosition with
  | Some q => Num (klfPositionToPercent q)
  | None => NaN
  end.

(** [return 1 - (percent / 100);] *)
Definition percentToKlfPosition (percent : Q) : Q :=
  1 - (percent / 100).

(** [Math.max(0, Math.min(100, position))] as written in
    [setDevicePosition]. *)
Definition clamp_0_100 (position : Q) : Q :=
  Qmax 0 (Qmin 100 position).

(** The specification's reading of the codec: the rounded value forced
    into [[0,100]].  Only used to compare with [klfPositionToPercent]. *)
Definition toPublic_clamped (raw : Q) : Z :=
  Z.max 0 (Z.min 100 (Math_round ((1 - raw) * 100))).

End Codec.

(* ===================================================================== *)
(** * The position codec in IEEE binary64 *)
(* ===================================================================== *)

Module Binary64.

(** The double of a non-negative integer below [2^53]. *)
Definition of_Z (z : Z) : float := PrimFloat.of_uint63 (Uint63.of_Z z).

(** [Math.round] on a double: [None] stands for [NaN] and the
    infinities, which [Math.round] returns unchanged.  A finite double is
    [n * 2^e] exactly, so the rounding is computed on integers. *)
Definition Math_round (x : float) : option Z :=
  match Prim2SF x with
  | S754_zero _ => Some 0
  | S754_finite s m e =>
      let n := if s then Z.neg m else Z.pos m in
      Some (if 0 <=? e then n * 2 ^ e
            else (2 * n + 2 ^ (- e)) / 2 ^ (1 - e))
  | S754_infinity _ | S754_nan => None
  end.

Definition klfPositionToPercent (klfPosition : float) : option Z :=
  Math_round (PrimFloat.mul (PrimFloat.sub 1%float klfPosition) 100%float).

Definition percentToKlfPosition (percent : float) : float :=
  PrimFloat.sub 1%float (PrimFloat.div percent 100%float).

(** The round trip checked on every percentage [0 .. n-1]. *)
Definition roundtrip_upto (n : nat) : bool :=
  forallb
    (fun p => match klfPositionToPercent (percentToKlfPosition (of_Z p)) with
              | Some p' => p' =? p
              | None => false
              end)
    (map Z.of_nat (seq 0 n)).

(** The exact value of a finite double, [m * 2^e]; [None] for [NaN] and
    the infinities. *)
Definition to_Q (x : float) : option Q :=
  match Prim2SF x with
  | S754_zero _ => Some 0%Q
  | S754_finite s m e =>
      let n := if s then Z.neg m else Z.pos m in
      Some (if 0 <=? e then inject_Z (n * 2 ^ e)
            else n # Z.to_pos (2 ^ (- e)))
  | S754_infinity _ | S754_nan => None
  end.

(** A position of the gateway's 16-bit scale, on which 0 is open and
    51200 (0xC800) is closed: the quotient [raw / 51200] as a double. *)
Definition on_scale (raw : Z) : float :=
  PrimFloat.div (of_Z raw) (of_Z 51200).

End Binary64.

(* ===================================================================== *)
(** * Device registry ([src/lib/device-registry.ts]) *)
(* ===================================================================== *)

(** [interface DeviceRegistryEvents]: what [this.emit] is called with. *)
Inductive RegistryEvent :=
  | deviceStateChanged (event : DeviceStateChangeEvent)
  | devicesUpdated (all : list DeviceState)
  | scenesUpdated (all : list SceneState).

(** [interface PersistedData]: both tables are objects keyed by strings,
    listed member by member; [lastRefresh] is the time of the save.  A
    snapshot file is modelled by the value [JSON.parse] returns for its
    text, a date being the instant its ISO text denotes. *)
Record PersistedData := mkPersisted {
  pd_devices : list (string * DeviceState);
  pd_scenes : list (string * SceneState);
  pd_lastRefresh : Z
}.

(** [Object.fromEntries(map)]: every key becomes its decimal text. *)
Definition Object_fromEntries {A} (m : gmap Z A) : list (string * A) :=
  (fun entry => (pretty entry.1, entry.2)) <$> map_to_list m.

(** What [JSON.stringify] writes for a percentage: JSON has no [NaN], it
    is written as [null]. *)
Definition JSON_number (x : number) : number :=
  match x with
  | NaN => Null
  | _ => x
  end.

Definition JSON_device (state : DeviceState) : DeviceState :=
  {| nodeId := nodeId state;
     name := name state;
     type := type state;
     position := JSON_number (position state);
     targetPosition := JSON_number (targetPosition state);
     moving := moving state;
     online := online state;
     error := error state;
     limitationMin := limitationMin state;
     limitationMax := limitationMax state;
     serialNumber := serialNumber state;
     productType := productType state;
     lastUpdate := lastUpdate state |}.

(** [JSON.stringify(data, null, 2)], as the value its text denotes. *)
Definition JSON_stringify (data : PersistedData) : PersistedData :=
  mkPersisted (prod_map id JSON_device <$> pd_devices data)
              (pd_scenes data) (pd_lastRefresh data).

(** The calls into node's [fs] module.  [renameSync] is part of that module
    and is listed so that its absence from a trace can be stated. *)
Inductive FsCall :=
  | existsSync (path : string)
  | mkdirSync (path : string)
  | writeFileSync (path : string) (data : PersistedData)
  | renameSync (oldPath newPath : string).

(** The disk: the directories and files that exist, whether [mkdirSync]
    and [writeFileSync] succeed, and the calls made so far (oldest
    first). *)
Record Disk := mkDisk {
  dirs : gset string;
  files : gmap string PersistedData;
  creatable : bool;
  writable : bool;
  trace : list FsCall
}.

Definition fs_log (c : FsCall) (d : Disk) : Disk :=
  mkDisk (dirs d) (files d) (creatable d) (writable d) (trace d ++ [c]).

Definition fs_existsSync (path : string) (d : Disk) : bool * Disk :=
  (bool_decide (path ∈ dirs d) || bool_decide (is_Some (files d !! path)),
   fs_log (existsSync path) d).

(** [mkdirSync(path, { recursive: true })]; [None] when the call throws. *)
Definition fs_mkdirSync (path : string) (d : Disk) : option unit * Disk :=
  let d' := fs_log (mkdirSync path) d in
  if creatable d
  then (Some tt, mkDisk ({[ path ]} ∪ dirs d') (files d') (creatable d')
                        (writable d') (trace d'))
  else (None, d').

(** [None] when the call throws. *)
Definition fs_writeFileSync (path : string) (data : PersistedData)
    (d : Disk) : option unit * Disk :=
  let d' := fs_log (writeFileSync path data) d in
  if writable d
  then (Some tt, mkDisk (dirs d') (<[path := data]> (files d'))
                        (creatable d') (writable d') (trace d'))
  else (None, d').

(** How a call ends: it returns, or an exception leaves it. *)
Inductive Completion :=
  | returns
  | throws.

(** Position of the last ['/'] of a path. *)
Fixpoint last_slash (s : string) (i : nat) (acc : option nat) : option nat :=
  match s with
  | EmptyString => acc
  | String c s' =>
      last_slash s' (S i) (if Ascii.eqb c "/"%char then Some i else acc)
  end.

(** [path.dirname] on a normalised path (no trailing or doubled slash). *)
Definition path_dirname (p : string) : string :=
  match last_slash p 0 None with
  | None => "."
  | Some O => "/"
  | Some n => String.substring 0 n p
  end.

(** [path.join(dir, file)] on normalised arguments. *)
Definition path_join (dir file : string) : string := dir +:+ "/" +:+ file.

Definition PERSISTENCE_FILE : string := "devices.json".

(** The fields of [class DeviceRegistry].  [saveTimer] is [true] while a
    timeout is pending. *)
Record DeviceRegistry := mkRegistry {
  devices : gmap Z DeviceState;
  scenes : gmap Z SceneState;
  persistPath : string;
  dirty : bool;
  saveTimer : bool
}.

Definition set_devices (m : gmap Z DeviceState) (r : DeviceRegistry) :=
  mkRegistry m (scenes r) (persistPath r) (dirty r) (saveTimer r).
Definition set_scenes (m : gmap Z SceneState) (r : DeviceRegistry) :=
  mkRegistry (devices r) m (persistPath r) (dirty r) (saveTimer r).
Definition set_dirty (b : bool) (r : DeviceRegistry) :=
  mkRegistry (devices r) (scenes r) (persistPath r) b (saveTimer r).
Definition set_saveTimer (b : bool) (r : DeviceRegistry) :=
  mkRegistry (devices r) (scenes r) (persistPath r) (dirty r) b.

(** [Array.from(this.devices.values())].  The order of a [Map] is its
    insertion order; the finite map fixes one order of its own. *)
Definition getAllDevices (r : DeviceRegistry) : list DeviceState :=
  (map_to_list (devices r)).*2.

Definition getAllScenes (r : DeviceRegistry) : list SceneState :=
  (map_to_list (scenes r)).*2.

(** [this.devices.get(nodeId) || null]. *)
Definition getDevice (nodeId : Z) (r : DeviceRegistry) : option DeviceState :=
  devices r !! nodeId.

(** [hasStateChanged]: six strict inequalities joined by [||]. *)
Definition hasStateChanged (prev curr : DeviceState) : bool :=
  strict_neq (position prev) (position curr) ||
  strict_neq (targetPosition prev) (targetPosition curr) ||
  bool_decide (moving prev ≠ moving curr) ||
  bool_decide (online prev ≠ online curr) ||
  bool_decide (error prev ≠ error curr) ||
  bool_decide (name prev ≠ name curr).

(** [scheduleSave]: arm the one-second timeout unless one is pending. *)
Definition scheduleSave (r : DeviceRegistry) : DeviceRegistry :=
  if saveTimer r then r else set_saveTimer true r.

Definition markDirty (r : DeviceRegistry) : DeviceRegistry :=
  scheduleSave (set_dirty true r).

(** [updateDevice]: the new registry and the events emitted. *)
Definition updateDevice (state : DeviceState) (r : DeviceRegistry)
    : DeviceRegistry * list RegistryEvent :=
  let previousState := devices r !! nodeId state in
  match previousState with
  | Some prev =>
      if negb (hasStateChanged prev state) then (r, [])
      else
        (markDirty (set_devices (<[nodeId state := state]> (devices r)) r),
         [deviceStateChanged (mkChange (nodeId state) previousState state)])
  | None =>
      (markDirty (set_devices (<[nodeId state := state]> (devices r)) r),
       [deviceStateChanged (mkChange (nodeId state) previousState state)])
  end.

(** The [for (const state of states)] loop of [updateDevices]. *)
Fixpoint updateDevices_loop (states : list DeviceState) (r : DeviceRegistry)
    : DeviceRegistry * list RegistryEvent :=
  match states with
  | [] => (r, [])
  | state :: rest =>
      let previousState := devices r !! nodeId state in
      if match previousState with
         | None => true
         | Some prev => hasStateChanged prev state
         end
      then
        let r1 := set_devices (<[nodeId state := state]> (devices r)) r in
        let '(r2, evs) := updateDevices_loop rest r1 in
        (r2, deviceStateChanged (mkChange (nodeId state) previousState state)
               :: evs)
      else updateDevices_loop rest r
  end.

Definition updateDevices (states : list DeviceState) (r : DeviceRegistry)
    : DeviceRegistry * list RegistryEvent :=
  let '(r1, evs) := updateDevices_loop states r in
  let r2 := markDirty r1 in
  (r2, evs ++ [devicesUpdated (getAllDevices r2)]).

Definition removeDevice (nodeId : Z) (r : DeviceRegistry)
    : DeviceRegistry * bool :=
  match devices r !! nodeId with
  | Some _ => (markDirty (set_devices (delete nodeId (devices r)) r), true)
  | None => (r, false)
  end.

Definition clearDevices (r : DeviceRegistry) : DeviceRegistry :=
  markDirty (set_devices ∅ r).

Definition updateScene (state : SceneState) (r : DeviceRegistry)
    : DeviceRegistry :=
  markDirty (set_scenes (<[sceneId state := state]> (scenes r)) r).

Definition updateScenes (states : list SceneState) (r : DeviceRegistry)
    : DeviceRegistry * list RegistryEvent :=
  let r1 :=
    foldl (fun acc state =>
             set_scenes (<[sceneId state := state]> (scenes acc)) acc)
          r states in
  let r2 := markDirty r1 in
  (r2, [scenesUpdated (getAllScenes r2)]).

(** [save]: make sure the directory exists, then one [writeFileSync] of the
    whole document to [persistPath]; [dirty] is cleared only when the write
    did not throw.  [mkdirSync] stands before the [try], so its exception
    leaves [save]; that of [writeFileSync] is caught.  [now] is the clock
    read by [new Date()]. *)
Definition save (now : Z) (r : DeviceRegistry) (d : Disk)
    : DeviceRegistry * Disk * Completion :=
  let dataDir := path_dirname (persistPath r) in
  let '(present, d1) := fs_existsSync dataDir d in
  match (if present then (Some tt, d1) else fs_mkdirSync dataDir d1) with
  | (None, d2) => (r, d2, throws)
  | (Some _, d2) =>
      let data :=
        mkPersisted (Object_fromEntries (devices r))
                    (Object_fromEntries (scenes r)) now in
      match fs_writeFileSync (persistPath r) (JSON_stringify data) d2 with
      | (Some _, d3) => (set_dirty false r, d3, returns)
      | (None, d3) => (r, d3, returns)
      end
  end.

(** The body of the timeout armed by [scheduleSave]. *)
Definition saveTimer_fired (now : Z) (r : DeviceRegistry) (d : Disk)
    : DeviceRegistry * Disk * Completion :=
  let r1 := set_saveTimer false r in
  if dirty r1 then save now r1 d else (r1, d, returns).

Definition flush (now : Z) (r : DeviceRegistry) (d : Disk)
    : DeviceRegistry * Disk * Completion :=
  let r1 := if saveTimer r then set_saveTimer false r else r in
  if dirty r1 then save now r1 d else (r1, d, returns).

Definition destroy := flush.

(** Every way the registry persists itself. *)
Inductive Persist :=
  | by_save | by_timer | by_flush | by_destroy.

Definition persist (how : Persist) (now : Z) (r : DeviceRegistry) (d : Disk)
    : DeviceRegistry * Disk * Completion :=
  match how with
  | by_save => save now r d
  | by_timer => saveTimer_fired now r d
  | by_flush => flush now r d
  | by_destroy => destroy now r d
  end.

(** A registry as the constructor leaves it when nothing was persisted. *)
Definition new_registry (DATA_DIR : string) : DeviceRegistry :=
  mkRegistry ∅ ∅ (path_join DATA_DIR PERSISTENCE_FILE) false false.

(** The specification's persistence discipline, on a trace of [fs] calls:
    the document goes to some other file which is then renamed over the
    snapshot path, and the snapshot path itself is never written. *)
Definition writes_path (target : string) (c : FsCall) : bool :=
  match c with
  | writeFileSync p _ => bool_decide (p = target)
  | _ => false
  end.

Definition temp_then_rename (target : string) (calls : list FsCall) : Prop :=
  (exists tmp data before after,
      tmp <> target /\
      calls = before ++ [writeFileSync tmp data; renameSync tmp target] ++ after)
  /\ existsb (writes_path target) calls = false.

(* ===================================================================== *)
(** * Gateway session ([src/lib/klf-connection.ts]) *)
(* ===================================================================== *)

Module KLF.

(** The fields of a [Product] of the gateway client library that the
    session reads.  A position is [None] when it is [NaN], which is what
    the library reports for an actuator whose position is not known.  The
    optional arrays and the optional serial number are [None] when
    [undefined]. *)
Record Product := mkProduct {
  NodeID : Z;
  Name : string;
  TypeID : Z;
  CurrentPosition : option Q;
  TargetPosition : option Q;
  RunStatus : Z;
  State : Z;
  StatusReply : Z;
  LimitationMinRaw : option (list Q);
  LimitationMaxRaw : option (list Q);
  SerialNumber : option (list Byte.byte)
}.

Record Scene := mkScene {
  SceneID : Z;
  SceneName : string;
  Products : list Z
}.

(** The numeric part of [interface KLF200Config]; delays are in
    milliseconds. *)
Record KLF200Config := mkConfig {
  connectionTimeout : Z;
  keepaliveInterval : Z;
  reconnectBaseDelay : Z;
  reconnectMaxDelay : Z
}.

(** The fields of [class KLFConnection].  An object reference is [true]
    when it is not [null]; timers are [true] while armed. *)
Record KLFConnection := mkKLF {
  config : KLF200Config;
  connection : bool;
  gateway : bool;
  products : option (list Product);
  scenes : option (list Scene);
  connected : bool;
  reconnecting : bool;
  reconnectAttempt : Z;
  keepaliveTimer : bool;
  reconnectTimer : bool;
  shuttingDown : bool
}.

(** What the session does to the outside: commands sent to an actuator,
    timers armed, events emitted. *)
Inductive Action :=
  | setTargetPositionAsync (node : Z) (klfPosition : Q)
  | stopAsync (node : Z)
  | setTimeout_reconnect (delay : Z)
  | emit_connected
  | emit_disconnected
  | emit_error
  | emit_devicesDiscovered (found : list DeviceState)
  | emit_scenesDiscovered (found : list SceneState).

(** The [Error]s thrown: ['Not connected to KLF-200'],
    ['Device with nodeId ... not found'], and whatever the gateway call
    itself rejected with. *)
Inductive KlfError :=
  | NotConnected
  | DeviceNotFound (nodeId : Z)
  | GatewayFailure (message : string).

Inductive outcome (A : Type) :=
  | resolved (a : A)
  | rejected (e : KlfError).
Arguments resolved {A} a.
Arguments rejected {A} e.

Definition hex_digit (n : N) : ascii :=
  match n with
  | 0%N => "0" | 1%N => "1" | 2%N => "2" | 3%N => "3" | 4%N => "4"
  | 5%N => "5" | 6%N => "6" | 7%N => "7" | 8%N => "8" | 9%N => "9"
  | 10%N => "a" | 11%N => "b" | 12%N => "c" | 13%N => "d" | 14%N => "e"
  | _ => "f"
  end%char.

(** [Buffer.prototype.toString('hex')]. *)
Definition toString_hex (b : list Byte.byte) : string :=
  fold_right
    (fun x acc =>
       String (hex_digit (Byte.to_N x / 16))
              (String (hex_digit (Byte.to_N x mod 16)) acc))
    EmptyString b.

(** [a?.[0] ?? dflt]. *)
Definition first_or (a : option (list Q)) (dflt : Q) : Q :=
  match a with
  | Some (x :: _) => x
  | _ => dflt
  end.

(** [productToDeviceState]; [now] is the clock read by [new Date()]. *)
Definition productToDeviceState (now : Z) (product : Product)
    : DeviceState :=
  let limitMin := first_or (LimitationMinRaw product) 0%Q in
  let limitMax := first_or (LimitationMaxRaw product) 1%Q in
  {| nodeId := NodeID product;
     name := Name product;
     type := getDeviceType (TypeID product);
     position := Codec.klfPositionToPercent_or_NaN (CurrentPosition product);
     targetPosition :=
       Codec.klfPositionToPercent_or_NaN (TargetPosition product);
     moving := negb (RunStatus product =? 0);
     online := State product =? 1;
     error := if negb (StatusReply product =? 0)
              then Some ("Status: " +:+ pretty (StatusReply product))
              else None;
     limitationMin := Codec.klfPositionToPercent limitMin;
     limitationMax := Codec.klfPositionToPercent limitMax;
     serialNumber := match SerialNumber product with
                     | Some b => toString_hex b
                     | None => EmptyString
                     end;
     productType := TypeID product;
     lastUpdate := now |}.

Definition with_reconnect (r : bool) (n : Z) (t : bool) (k : KLFConnection)
    : KLFConnection :=
  mkKLF (config k) (connection k) (gateway k) (products k) (scenes k)
        (connected k) r n (keepaliveTimer k) t (shuttingDown k).

Definition with_link (c g : bool) (up : bool) (ka : bool)
    (k : KLFConnection) : KLFConnection :=
  mkKLF (config k) c g (products k) (scenes k) up (reconnecting k)
        (reconnectAttempt k) ka (reconnectTimer k) (shuttingDown k).

Definition with_catalog (ps : option (list Product))
    (ss : option (list Scene)) (k : KLFConnection) : KLFConnection :=
  mkKLF (config k) (connection k) (gateway k) ps ss (connected k)
        (reconnecting k) (reconnectAttempt k) (keepaliveTimer k)
        (reconnectTimer k) (shuttingDown k).

(** How far the handshake of [connect] gets: [loginAsync] rejects,
    [enableHouseStatusMonitorAsync] rejects, or both succeed. *)
Inductive Handshake :=
  | login_fails (message : string)
  | monitor_fails (message : string)
  | established.

(** [connect]. *)
Definition connect (h : Handshake) (k : KLFConnection)
    : KLFConnection * outcome unit * list Action :=
  if connected k then (k, resolved tt, [])
  else
    match h with
    | established =>
        (with_reconnect (reconnecting k) 0 (reconnectTimer k)
           (with_link true true true true k),
         resolved tt, [emit_connected])
    | monitor_fails message =>
        (with_link true true false (keepaliveTimer k) k,
         rejected (GatewayFailure message), [emit_error])
    | login_fails message =>
        (with_link true (gateway k) false (keepaliveTimer k) k,
         rejected (GatewayFailure message), [emit_error])
    end.

(** [discoverDevices].  [reply] is the product list the gateway returns,
    [None] when the request fails. *)
Definition discoverDevices (now : Z) (reply : option (list Product))
    (k : KLFConnection)
    : KLFConnection * outcome (list DeviceState) * list Action :=
  if negb (connection k) || negb (connected k)
  then (k, rejected NotConnected, [])
  else match reply with
       | Some ps =>
           let found := map (productToDeviceState now) ps in
           (with_catalog (Some ps) (scenes k) k, resolved found,
            [emit_devicesDiscovered found])
       | None => (k, rejected (GatewayFailure "createProductsAsync"), [])
       end.

Definition discoverScenes (reply : option (list Scene)) (k : KLFConnection)
    : KLFConnection * outcome (list SceneState) * list Action :=
  if negb (connection k) || negb (connected k)
  then (k, rejected NotConnected, [])
  else match reply with
       | Some ss =>
           let found :=
             map (fun s => mkSceneState (SceneID s) (SceneName s)
                                        (Z.of_nat (length (Products s))))
                 ss in
           (with_catalog (products k) (Some ss) k, resolved found,
            [emit_scenesDiscovered found])
       | None => (k, rejected (GatewayFailure "createScenesAsync"), [])
       end.

(** [setDevicePosition].  [reply] is the error the actuator call
    rejects with, [None] when it succeeds. *)
Definition setDevicePosition (reply : option string) (nodeId : Z)
    (position : Q) (k : KLFConnection) : outcome unit * list Action :=
  match products k with
  | None => (rejected NotConnected, [])
  | Some ps =>
      if negb (connected k) then (rejected NotConnected, [])
      else
        match find (fun p => NodeID p =? nodeId) ps with
        | None => (rejected (DeviceNotFound nodeId), [])
        | Some product =>
            let clampedPosition := Codec.clamp_0_100 position in
            let klfPosition := Codec.percentToKlfPosition clampedPosition in
            (match reply with
             | None => resolved tt
             | Some message => rejected (GatewayFailure message)
             end,
             [setTargetPositionAsync (NodeID product) klfPosition])
        end
  end.

Definition stopDevice (reply : option string) (nodeId : Z)
    (k : KLFConnection) : outcome unit * list Action :=
  match products k with
  | None => (rejected NotConnected, [])
  | Some ps =>
      if negb (connected k) then (rejected NotConnected, [])
      else
        match find (fun p => NodeID p =? nodeId) ps with
        | None => (rejected (DeviceNotFound nodeId), [])
        | Some product =>
            (match reply with
             | None => resolved tt
             | Some message => rejected (GatewayFailure message)
             end,
             [stopAsync (NodeID product)])
        end
  end.

(** [scheduleReconnect] up to the [setTimeout] call: the counter is
    incremented and the timeout armed with the backoff delay. *)
Definition scheduleReconnect (k : KLFConnection)
    : KLFConnection * list Action :=
  if shuttingDown k || reconnecting k then (k, [])
  else
    let attempt := reconnectAttempt k + 1 in
    let delay :=
      Z.min (reconnectBaseDelay (config k) * 2 ^ (attempt - 1))
            (reconnectMaxDelay (config k)) in
    (with_reconnect true attempt true k, [setTimeout_reconnect delay]).

(** [handleConnectionLoss]. *)
Definition handleConnectionLoss (k : KLFConnection)
    : KLFConnection * list Action :=
  if shuttingDown k then (k, [])
  else
    let k1 := with_link (connection k) (gateway k) false false k in
    if negb (reconnecting k1)
    then let '(k2, acts) := scheduleReconnect k1 in
         (k2, emit_disconnected :: acts)
    else (k1, [emit_disconnected]).



(** The delays of the timeouts armed by a list of actions. *)
Definition delays (acts : list Action) : list Z :=
  omap (fun a => match a with
                 | setTimeout_reconnect d => Some d
                 | _ => None
                 end) acts.



(** [disconnect]: the shutdown flag is raised, both timers are stopped,
    every reference is dropped and [disconnected] is emitted.  A failing
    [logoutAsync] is only logged, so its outcome does not matter. *)
Definition disconnect (k : KLFConnection) : KLFConnection * list Action :=
  (mkKLF (config k) false false None None false false (reconnectAttempt k)
         false false true,
   [emit_disconnected]).

(** [reconnect]: [disconnect], lower the shutdown flag, [connect]. *)
Definition reconnect (h : Handshake) (k : KLFConnection)
    : KLFConnection * outcome unit * list Action :=
  let '(k1, acts1) := disconnect k in
  let k2 := mkKLF (config k1) (connection k1) (gateway k1) (products k1)
                  (scenes k1) (connected k1) (reconnecting k1)
                  (reconnectAttempt k1) (keepaliveTimer k1)
                  (reconnectTimer k1) false in
  let '(k3, r, acts3) := connect h k2 in
  (k3, r, acts1 ++ acts3).

(** The callback of the keepalive interval; [alive] tells whether
    [getStateAsync] succeeds. *)
Definition keepalive_fired (alive : bool) (k : KLFConnection)
    : KLFConnection * list Action :=
  if negb (connected k) || negb (connection k) then (k, [])
  else if gateway k then
    if alive then (k, []) else handleConnectionLoss k
  else (k, []).

(** [getDeviceStates]: discovery when no product list is held, otherwise
    the held products converted again. *)
Definition getDeviceStates (now : Z) (reply : option (list Product))
    (k : KLFConnection)
    : KLFConnection * outcome (list DeviceState) * list Action :=
  match products k with
  | None => discoverDevices now reply k
  | Some ps => (k, resolved (map (productToDeviceState now) ps), [])
  end.

(** [getDeviceState]. *)
Definition getDeviceState (now : Z) (reply : option (list Product))
    (nodeId : Z) (k : KLFConnection)
    : KLFConnection * outcome (option DeviceState) * list Action :=
  let lookup k' :=
    match products k' with
    | Some ps =>
        productToDeviceState now <$> find (fun p => NodeID p =? nodeId) ps
    | None => None
    end in
  match products k with
  | None =>
      let '(k1, r, acts) := discoverDevices now reply k in
      match r with
      | rejected e => (k1, rejected e, acts)
      | resolved _ => (k1, resolved (lookup k1), acts)
      end
  | Some _ => (k, resolved (lookup k), [])
  end.

(** [refresh]: both discoveries, in order, when connected. *)
Definition refresh (now : Z) (devs : option (list Product))
    (scns : option (list Scene)) (k : KLFConnection)
    : KLFConnection * outcome unit * list Action :=
  if negb (connected k) then (k, rejected NotConnected, [])
  else
    let '(k1, r1, acts1) := discoverDevices now devs k in
    match r1 with
    | rejected e => (k1, rejected e, acts1)
    | resolved _ =>
        let '(k2, r2, acts2) := discoverScenes scns k1 in
        match r2 with
        | rejected e => (k2, rejected e, acts1 ++ acts2)
        | resolved _ => (k2, resolved tt, acts1 ++ acts2)
        end
    end.

End KLF.

(* ===================================================================== *)
(** * Bus bridge ([src/lib/mqtt-bridge.ts]) *)
(* ===================================================================== *)

Module MQTT.

(** Strings are sequences of code units below 256; the built-ins below
    are the ECMAScript ones restricted to that range. *)

(** White space and line terminators, as skipped by [trim] and
    [parseInt]: TAB, LF, VT, FF, CR, SP and NBSP. *)
Definition isWhiteSpace (c : ascii) : bool :=
  let n := N_of_ascii c in
  ((9 <=? n) && (n <=? 13) || (n =? 32) || (n =? 160))%N.

(** [toLowerCase] on one code unit: A-Z and the Latin-1 capitals. *)
Definition lower (c : ascii) : ascii :=
  let n := N_of_ascii c in
  if ((65 <=? n) && (n <=? 90)
      || (192 <=? n) && (n <=? 222) && negb (n =? 215))%N
  then ascii_of_N (n + 32)
  else c.

Fixpoint toLowerCase (s : string) : string :=
  match s with
  | EmptyString => EmptyString
  | String c s' => String (lower c) (toLowerCase s')
  end.

Fixpoint trimStart (s : string) : string :=
  match s with
  | EmptyString => EmptyString
  | String c s' => if isWhiteSpace c then trimStart s' else s
  end.

Fixpoint trimEnd (s : string) : string :=
  match s with
  | EmptyString => EmptyString
  | String c s' =>
      match trimEnd s' with
      | EmptyString =>
          if isWhiteSpace c then EmptyString else String c EmptyString
      | t => String c t
      end
  end.

Definition trim (s : string) : string := trimEnd (trimStart s).

Definition digit (c : ascii) : option Z :=
  let n := N_of_ascii c in
  if ((48 <=? n) && (n <=? 57))%N then Some (Z.of_N n - 48) else None.

(** The longest prefix of decimal digits, read as a number; [acc] is the
    value read so far, [None] before the first digit. *)
Fixpoint digits (s : string) (acc : option Z) : option Z :=
  match s with
  | EmptyString => acc
  | String c s' =>
      match digit c with
      | Some d => digits s' (Some (10 * default 0 acc + d))
      | None => acc
      end
  end.

(** [parseInt(s, 10)]; [None] is [NaN]. *)
Definition parseInt (s : string) : option Z :=
  match trimStart s with
  | String "-" r => (fun n => - n) <$> digits r None
  | String "+" r => digits r None
  | r => digits r None
  end.

(** [type DeviceCommand = 'open' | 'close' | 'stop' | number]. *)
Inductive DeviceCommand :=
  | cmd_open
  | cmd_close
  | cmd_stop
  | cmd_number (n : Z).

Inductive GlobalCommand := refresh | reconnect.

(** [interface MQTTBridgeEvents], the events raised by incoming
    messages. *)
Inductive BridgeEvent :=
  | deviceCommand (nodeId : Z) (command : DeviceCommand)
  | sceneCommand (sceneId : Z)
  | globalCommand (command : GlobalCommand).

(** [parseDeviceCommand]; [None] is [null]. *)
Definition parseDeviceCommand (payload : string) : option DeviceCommand :=
  let cmd := trim (toLowerCase payload) in
  if String.eqb cmd "open" then Some cmd_open
  else if String.eqb cmd "close" then Some cmd_close
  else if String.eqb cmd "stop" then Some cmd_stop
  else
    match parseInt payload with
    | Some position =>
        if (0 <=? position) && (position <=? 100)
        then Some (cmd_number position)
        else None
    | None => None
    end.

Fixpoint strip_prefix (p s : string) : option string :=
  match p, s with
  | EmptyString, _ => Some s
  | String a p', String b s' =>
      if Ascii.eqb a b then strip_prefix p' s' else None
  | String _ _, EmptyString => None
  end.

(** The longest prefix of decimal digits and what follows it. *)
Fixpoint span_digits (s : string) : string * string :=
  match s with
  | EmptyString => (EmptyString, EmptyString)
  | String c s' =>
      match digit c with
      | Some _ => let '(ds, rest) := span_digits s' in (String c ds, rest)
      | None => (EmptyString, s)
      end
  end.

(** [topic.match(new RegExp(`^${head}(\\d+)${tail}$`))] followed by
    [parseInt(match[1], 10)], for a [head] and [tail] without regular
    expression operators, which the pattern then reads as themselves, and
    for a number that a double holds exactly (at most 15 digits). *)
Definition match_numbered (head tail topic : string) : option Z :=
  match strip_prefix head topic with
  | Some rest =>
      let '(ds, after) := span_digits rest in
      if negb (String.eqb ds EmptyString) && String.eqb after tail
      then parseInt ds
      else None
  | None => None
  end.

(** [handleMessage]: the events emitted for one incoming message. *)
Definition handleMessage (prefix topic payload : string)
    : list BridgeEvent :=
  match match_numbered (prefix +:+ "/devices/") "/cmd" topic with
  | Some nodeId =>
      match parseDeviceCommand payload with
      | Some command => [deviceCommand nodeId command]
      | None => []
      end
  | None =>
  match match_numbered (prefix +:+ "/devices/") "/position/set" topic with
  | Some nodeId =>
      match parseInt payload with
      | Some position =>
          if (0 <=? position) && (position <=? 100)
          then [deviceCommand nodeId (cmd_number position)]
          else []
      | None => []
      end
  | None =>
  match match_numbered (prefix +:+ "/scenes/") "/cmd" topic with
  | Some sceneId =>
      if String.eqb (toLowerCase payload) "run"
      then [sceneCommand sceneId]
      else []
  | None =>
      if String.eqb topic (prefix +:+ "/cmd") then
        let command := toLowerCase payload in
        if String.eqb command "refresh" then [globalCommand refresh]
        else if String.eqb command "reconnect" then [globalCommand reconnect]
        else []
      else []
  end end end.

(** The closed set of the specification. *)
Definition valid_command (c : DeviceCommand) : Prop :=
  match c with
  | cmd_open | cmd_close | cmd_stop => True
  | cmd_number n => 0 <= n <= 100
  end.

(** ** Publication *)

(** The configuration and the connection state of [class MQTTBridge];
    [client] is [true] when the client object is not [null]. *)
Record Bridge := mkBridge {
  topicPrefix : string;
  retain : bool;
  qos : Z;
  client : bool;
  connected : bool
}.

(** What is handed to [client.publish] as payload: a plain string, or the
    JSON rendering of a message object. *)
Inductive Payload :=
  | text (s : string)
  | json_device (message : DeviceState)
  | json_scene (message : SceneState)
  | json_error (timestamp : Z) (severity component message : string)
               (details : list (string * string)).

Record Message := mkMessage {
  msg_topic : string;
  msg_payload : Payload;
  msg_qos : Z;
  msg_retain : bool
}.

(** [topic(path)]. *)
Definition topic (b : Bridge) (path : string) : string :=
  topicPrefix b +:+ "/" +:+ path.

(** [publish]: the messages handed to the client and whether the promise
    resolves.  [broker] tells which messages the client reports as
    published without error.  Without a connection the message is dropped
    and the promise resolves. *)
Definition publish (broker : Message -> bool) (topic : string)
    (payload : Payload) (retain_ : bool) (b : Bridge) : bool * list Message :=
  if negb (client b) || negb (connected b) then (true, [])
  else
    let m := mkMessage topic payload (qos b) retain_ in
    (broker m, [m]).

(** Two awaited steps: the second runs only if the first resolves. *)
Definition and_then (first second : bool * list Message)
    : bool * list Message :=
  if first.1 then (second.1, first.2 ++ second.2) else (false, first.2).

Inductive Status := online | offline.

Definition status_text (st : Status) : string :=
  match st with
  | online => "online"
  | offline => "offline"
  end.

Definition publishStatus (broker : Message -> bool) (st : Status)
    (b : Bridge) : bool * list Message :=
  publish broker (topic b "status") (text (status_text st)) (retain b) b.

(** [String(flag)]. *)
Definition bool_text (flag : bool) : string :=
  if flag then "true" else "false".

Definition publishDeviceState (broker : Message -> bool)
    (state : DeviceState) (b : Bridge) : bool * list Message :=
  let node := "devices/" +:+ pretty (nodeId state) in
  and_then
    (publish broker (topic b (node +:+ "/state")) (json_device state)
             (retain b) b)
    (and_then
       (publish broker (topic b (node +:+ "/position"))
                (text (number_text (position state))) (retain b) b)
       (publish broker (topic b (node +:+ "/moving"))
                (text (bool_text (moving state))) (retain b) b)).

Fixpoint publishAllDeviceStates (broker : Message -> bool)
    (states : list DeviceState) (b : Bridge) : bool * list Message :=
  match states with
  | [] => (true, [])
  | state :: rest =>
      and_then (publishDeviceState broker state b)
               (publishAllDeviceStates broker rest b)
  end.

Definition publishSceneState (broker : Message -> bool)
    (state : SceneState) (b : Bridge) : bool * list Message :=
  publish broker
          (topic b ("scenes/" +:+ pretty (sceneId state) +:+ "/state"))
          (json_scene state) (retain b) b.

(** [publishError]: always published with [retain] off. *)
Definition publishError (broker : Message -> bool) (now : Z)
    (severity component message : string) (details : list (string * string))
    (b : Bridge) : bool * list Message :=
  publish broker (topic b "errors")
          (json_error now severity component message details) false b.

(** [disconnect]: publish [offline], then end the client.  When the
    publication is rejected the promise rejects before [client.end]. *)
Definition disconnect (broker : Message -> bool) (b : Bridge)
    : Bridge * bool * list Message :=
  if negb (client b) then (b, true, [])
  else
    let '(ok, sent) := publishStatus broker offline b in
    if ok
    then (mkBridge (topicPrefix b) (retain b) (qos b) false false, true, sent)
    else (b, false, sent).

End MQTT.

(* ===================================================================== *)
(** * Orchestration ([src/daemon.ts]) *)
(* ===================================================================== *)

Module Daemon.


(** The handler of the session's [deviceStateChanged] event. *)
Definition on_deviceStateChanged (state : DeviceState) (r : DeviceRegistry)
    : DeviceRegistry * list RegistryEvent :=
  updateDevice state r.

(** [handleDeviceCommand] up to the error report. *)
Definition handleDeviceCommand (reply : option string) (nodeId : Z)
    (command : MQTT.DeviceCommand) (k : KLF.KLFConnection)
    : KLF.outcome unit * list KLF.Action :=
  match command with
  | MQTT.cmd_open => KLF.setDevicePosition reply nodeId 100%Q k
  | MQTT.cmd_close => KLF.setDevicePosition reply nodeId 0%Q k
  | MQTT.cmd_stop => KLF.stopDevice reply nodeId k
  | MQTT.cmd_number n => KLF.setDevicePosition reply nodeId (inject_Z n) k
  end.

(** The session's [deviceStateChanged] event through to the bus: the
    registry update, and for the registry event it emits, the listener that
    calls [publishDeviceState]. *)
Definition deviceStateChanged_to_bus (broker : MQTT.Message -> bool)
    (state : DeviceState) (r : DeviceRegistry) (b : MQTT.Bridge)
    : DeviceRegistry * list MQTT.Message :=
  let '(r', evs) := on_deviceStateChanged state r in
  (r',
   flat_map (fun ev =>
               match ev with
               | deviceStateChanged event =>
                   (MQTT.publishDeviceState broker (currentState event) b).2
               | _ => []
               end) evs).

(** [handleGlobalCommand]; failures are logged and go no further. *)
Definition handleGlobalCommand (autoDiscovery : bool) (now : Z)
    (h : KLF.Handshake) (devs : option (list KLF.Product))
    (scns : option (list KLF.Scene)) (command : MQTT.GlobalCommand)
    (k : KLF.KLFConnection) : KLF.KLFConnection * list KLF.Action :=
  match command with
  | MQTT.refresh =>
      let '(k1, _, acts) := KLF.refresh now devs scns k in (k1, acts)
  | MQTT.reconnect =>
      let '(k1, r1, acts1) := KLF.reconnect h k in
      match r1 with
      | KLF.rejected _ => (k1, acts1)
      | KLF.resolved _ =>
          if autoDiscovery then
            let '(k2, r2, acts2) := KLF.discoverDevices now devs k1 in
            match r2 with
            | KLF.rejected _ => (k2, acts1 ++ acts2)
            | KLF.resolved _ =>
                let '(k3, _, acts3) := KLF.discoverScenes scns k2 in
                (k3, acts1 ++ acts2 ++ acts3)
            end
          else (k1, acts1)
      end
  end.

End Daemon.

(* ===================================================================== *)
(** * Status codes, registry start-up and configuration checks *)
(* ===================================================================== *)

(** [interface StatusInfo]. *)
Record StatusInfo := mkStatusInfo {
  isError : bool;
  message : string
}.

(** [STATUS_REPLY_MAP], as the list of its entries. *)
Definition STATUS_REPLY_MAP : list (Z * StatusInfo) :=
  [ (0x00, mkStatusInfo false "Unknown");
    (0x01, mkStatusInfo false "OK");
    (0x02, mkStatusInfo true "No contact - device not responding");
    (0x03, mkStatusInfo false "Manually operated");
    (0x04, mkStatusInfo true "Blocked - obstacle detected");
    (0x05, mkStatusInfo true "Wrong system key");
    (0x06, mkStatusInfo false "Priority level locked");
    (0x07, mkStatusInfo true "Reached wrong position");
    (0x08, mkStatusInfo true "Error during execution");
    (0x09, mkStatusInfo false "No execution - command ignored");
    (0x0a, mkStatusInfo false "Calibrating");
    (0x0b, mkStatusInfo true "Power consumption too high");
    (0x0c, mkStatusInfo true "Power consumption too low");
    (0x0d, mkStatusInfo true "Electrical fault");
    (0x0e, mkStatusInfo true "Motor fault");
    (0x0f, mkStatusInfo false "Thermal protection active");
    (0x10, mkStatusInfo true "Product not operational");
    (0x11, mkStatusInfo false "Filter maintenance needed");
    (0x12, mkStatusInfo false "Battery level low");
    (0x13, mkStatusInfo false "Target position modified");
    (0x14, mkStatusInfo false "Mode not implemented");
    (0x15, mkStatusInfo false "Command incompatible with movement");
    (0x16, mkStatusInfo false "User action required");
    (0x17, mkStatusInfo true "Dead bolt error");
    (0x18, mkStatusInfo true "Automatic cycle engaged");
    (0x19, mkStatusInfo false "Wrong load connected");
    (0x1a, mkStatusInfo true "Colour not reachable");
    (0x1b, mkStatusInfo true "Target not reachable");
    (0x1c, mkStatusInfo true "Bad index received");
    (0x1d, mkStatusInfo false "Command overruled");
    (0x1e, mkStatusInfo false "Node is waiting for power");
    (0xdf, mkStatusInfo false "Information code");
    (0xe0, mkStatusInfo false "Limited by local user");
    (0xe1, mkStatusInfo false "Limited by rain sensor");
    (0xe2, mkStatusInfo false "Limited by timer");
    (0xe3, mkStatusInfo false "Limited by UPS");
    (0xe4, mkStatusInfo false "Limited by standby");
    (0xe5, mkStatusInfo false "Limited by fire alarm");
    (0xe6, mkStatusInfo false "Limited by building protection");
    (0xe7, mkStatusInfo false "Limited by safety device");
    (0xe8, mkStatusInfo false "Limited by emergency");
    (0xe9, mkStatusInfo false "Limited by wind sensor");
    (0xea, mkStatusInfo false "Limited by freeze sensor");
    (0xeb, mkStatusInfo false "Limited by outside temperature");
    (0xec, mkStatusInfo false "Limited by inside temperature");
    (0xed, mkStatusInfo false "Limited by brightness");
    (0xee, mkStatusInfo false "Limited by comfort temperature") ].

(** [STATUS_REPLY_MAP[statusReply]]. *)
Definition status_lookup (statusReply : Z) : option StatusInfo :=
  snd <$> find (fun e => fst e =? statusReply) STATUS_REPLY_MAP.

(** [getStatusInfo]; [None] is [null]. *)
Definition getStatusInfo (statusReply : Z) : option StatusInfo :=
  if (statusReply =? 0x00) || (statusReply =? 0x01) then None
  else
    match status_lookup statusReply with
    | Some info => Some info
    | None =>
        Some (mkStatusInfo false
                ("Unknown status (" +:+ pretty statusReply +:+ ")"))
    end.

(** The [for (const [key, state] of Object.entries(...))] loops of [load]:
    every member is set under [parseInt(key, 10)], a later member replacing
    an earlier one with the same number.  A key that is no number gives
    the map key [NaN], under which no node id finds it; such a member is
    left out. *)
Fixpoint restore {A} (members : list (string * A)) (m : gmap Z A)
    : gmap Z A :=
  match members with
  | [] => m
  | (key, state) :: rest =>
      restore rest
        (match MQTT.parseInt key with
         | Some id => <[id := state]> m
         | None => m
         end)
  end.

(** [load], the reading half of persistence: when the snapshot file exists
    and parses, each of its members is set in the maps; [new Date] of the
    ISO text of an instant is that instant again.  The disk is only read;
    a path that exists without holding a document leaves the registry as
    it is, like the caught exception does. *)
Definition load (r : DeviceRegistry) (d : Disk) : DeviceRegistry :=
  if (fs_existsSync (persistPath r) d).1 then
    match files d !! persistPath r with
    | Some data =>
        set_scenes (restore (pd_scenes data) (scenes r))
                   (set_devices (restore (pd_devices data) (devices r)) r)
    | None => r
    end
  else r.

(** [new DeviceRegistry()] with [DATA_DIR] and the disk it finds. *)
Definition DeviceRegistry_new (DATA_DIR : string) (d : Disk)
    : DeviceRegistry :=
  load (new_registry DATA_DIR) d.

Definition getScene (sceneId : Z) (r : DeviceRegistry) : option SceneState :=
  scenes r !! sceneId.

Definition clearScenes (r : DeviceRegistry) : DeviceRegistry :=
  markDirty (set_scenes ∅ r).

Module Config.

(** The fields of [PluginConfig] that [validateConfig] reads. *)
Record PluginConfig := mkPluginConfig {
  host : string;
  password : string;
  port : Z;
  keepaliveInterval : Z;
  qos : Z
}.

(** The part of [DEFAULT_CONFIG] that [validateConfig] reads. *)
Definition DEFAULT_CONFIG : PluginConfig :=
  mkPluginConfig "" "" 51200 600000 1.

(** [validateConfig]: the collected error texts, in the order they are
    pushed, and whether the keepalive warning is logged.  The function
    throws exactly when the list is not empty. *)
Definition validateConfig (config : PluginConfig) : list string * bool :=
  ((if String.eqb (host config) "" then ["klf200.host is required"] else [])
   ++ (if String.eqb (password config) ""
       then ["klf200.password is required"] else [])
   ++ (if (port config <? 1) || (port config >? 65535)
       then ["klf200.port must be between 1 and 65535"] else [])
   ++ (if negb ((qos config =? 0) || (qos config =? 1) || (qos config =? 2))
       then ["mqtt.qos must be 0, 1, or 2"] else []),
   keepaliveInterval config <? 60000).

End Config.

Module Logger.

(** [parseSize]: [/^(\d+)([kmg])?$/i] on the size text, ten mebibytes when
    it does not match. *)
Definition parseSize (size : string) : Z :=
  let '(ds, rest) := MQTT.span_digits size in
  if String.eqb ds "" then 10 * 1024 * 1024
  else
    let value := default 0 (MQTT.parseInt ds) in
    let unit := MQTT.toLowerCase rest in
    if String.eqb rest "" then value
    else if String.eqb unit "k" then value * 1024
    else if String.eqb unit "m" then value * 1024 * 1024
    else if String.eqb unit "g" then value * 1024 * 1024 * 1024
    else 10 * 1024 * 1024.

End Logger.

(* ===================================================================== *)
(** * Notions used to state the properties *)
(* ===================================================================== *)

(** Two device states agree on the semantic fields [position],
    [targetPosition], [moving], [online], [error] and [name]. *)
Definition semantic_fields_equal (a b : DeviceState) : Prop :=
  position a = position b /\
  targetPosition a = targetPosition b /\
  moving a = moving b /\
  online a = online b /\
  error a = error b /\
  name a = name b.

(** Neither percentage of a device state is [NaN]. *)
Definition comparable (d : DeviceState) : Prop :=
  position d <> NaN /\ targetPosition d <> NaN.

Definition is_NaN (x : number) : bool :=
  match x with
  | NaN => true
  | _ => false
  end.

(** A device state that carries a [NaN] percentage. *)
Definition has_NaN (d : DeviceState) : bool :=
  is_NaN (position d) || is_NaN (targetPosition d).



(** The backoff schedule of the specification for the 1-based attempt
    counter [n]: [min(base * 2^(n-1), max)]. *)
Definition spec_delay (base max n : Z) : Z := Z.min (base * 2 ^ (n - 1)) max.

(** A string made of white space only. *)
Fixpoint all_ws (s : string) : bool :=
  match s with
  | EmptyString => true
  | String c s' => MQTT.isWhiteSpace c && all_ws s'
  end.

(** The command a keyword stands for. *)
Definition keyword_command (kw : string) : option MQTT.DeviceCommand :=
  if String.eqb kw "open" then Some MQTT.cmd_open
  else if String.eqb kw "close" then Some MQTT.cmd_close
  else if String.eqb kw "stop" then Some MQTT.cmd_stop
  else None.

(** The actuator of the first scenario: node 0, half open, idle, with no
    limitation arrays. *)
Definition kitchen_product : KLF.Product :=
  KLF.mkProduct 0 "Kitchen" 4 (Some (1 # 2)) (Some (1 # 2)) 0 1 0
                None None None.

(** An actuator whose position the gateway does not know. *)
Definition skylight_product : KLF.Product :=
  KLF.mkProduct 2 "Skylight" 4 None None 0 1 0 None None None.

(** The configuration of the reconnect scenario: 5 s base, 60 s cap. *)
Definition scenario_config : KLF.KLF200Config :=
  KLF.mkConfig 10000 60000 5000 60000.

(** A session that is connected and has discovered [kitchen_product]. *)
Definition session_ready : KLF.KLFConnection :=
  KLF.mkKLF scenario_config true true (Some [kitchen_product]) (Some [])
            true false 0 true false false.

(** A session that is connected but has not run discovery. *)
Definition session_undiscovered : KLF.KLFConnection :=
  KLF.mkKLF scenario_config true true None None
            true false 0 true false false.

Definition is_rename (c : FsCall) : bool :=
  match c with
  | renameSync _ _ => true
  | _ => false
  end.

(** The document [save] writes. *)
Definition snapshot (now : Z) (r : DeviceRegistry) : PersistedData :=
  JSON_stringify
    (mkPersisted (Object_fromEntries (devices r))
                 (Object_fromEntries (scenes r)) now).

(** Whether [existsSync] finds a path. *)
Definition present (path : string) (d : Disk) : bool :=
  (fs_existsSync path d).1.

(** Every key of a [Map] is an integer that a double holds exactly, so
    that its decimal text is the plain digit string. *)
Definition safe_keys {A} (m : gmap Z A) : Prop :=
  map_Forall (fun id _ => Z.abs id < 2 ^ 53) m.

(** Concrete devices and disks for the examples. *)
Definition kitchen : DeviceState :=
  mkDeviceState 0 "Kitchen" WINDOW (Num 50) (Num 50) false true None
                0 100 "ab12" 4 1000.


(** [kitchen] reported again later, with other limits and serial number
    but the same semantic fields. *)
Definition kitchen_later : DeviceState :=
  mkDeviceState 0 "Kitchen" WINDOW (Num 50) (Num 50) false true None
                10 90 "ef56" 4 2000.

Definition kitchen_opened : DeviceState :=
  mkDeviceState 0 "Kitchen" WINDOW (Num 100) (Num 100) false true None
                0 100 "ab12" 4 3000.

(** The state built from [skylight_product] at time 1000. *)
Definition skylight : DeviceState :=
  mkDeviceState 2 "Skylight" WINDOW NaN NaN false true None 100 0 "" 4 1000.

Definition LBPDATA : string := "/opt/loxberry/data/plugins/klf200".

Definition empty_disk : Disk := mkDisk ∅ ∅ true true [].

(** A string made of decimal digits only. *)
Fixpoint all_digits (s : string) : bool :=
  match s with
  | EmptyString => true
  | String c s' => bool_decide (is_Some (MQTT.digit c)) && all_digits s'
  end.

(** A string that does not begin with a decimal digit. *)
Definition no_leading_digit (s : string) : bool :=
  match s with
  | EmptyString => true
  | String c _ => bool_decide (MQTT.digit c = None)
  end.

(** The last code unit of a string. *)
Fixpoint last_char (s : string) : option ascii :=
  match s with
  | EmptyString => None
  | String c EmptyString => Some c
  | String _ s' => last_char s'
  end.

(** The percentage a device command asks for; [stop] asks for none. *)
Definition commanded_percent (cmd : MQTT.DeviceCommand) : option Z :=
  match cmd with
  | MQTT.cmd_open => Some 100
  | MQTT.cmd_close => Some 0
  | MQTT.cmd_stop => None
  | MQTT.cmd_number n => Some n
  end.

(** The three messages of one device state, as [publishDeviceState] sends
    them when nothing goes wrong. *)
Definition device_messages (b : MQTT.Bridge) (state : DeviceState)
    : list MQTT.Message :=
  let node := "devices/" +:+ pretty (nodeId state) in
  [ MQTT.mkMessage (MQTT.topic b (node +:+ "/state"))
                   (MQTT.json_device state) (MQTT.qos b) (MQTT.retain b);
    MQTT.mkMessage (MQTT.topic b (node +:+ "/position"))
                   (MQTT.text (number_text (position state)))
                   (MQTT.qos b) (MQTT.retain b);
    MQTT.mkMessage (MQTT.topic b (node +:+ "/moving"))
                   (MQTT.text (MQTT.bool_text (moving state)))
                   (MQTT.qos b) (MQTT.retain b) ].

(** A bridge that is connected to the default broker set-up. *)
Definition bridge_up : MQTT.Bridge := MQTT.mkBridge "klf200" true 1 true true.

(** The integers [z, z + 1, ..., z + k - 1]. *)
Fixpoint upto (k : nat) (z : Z) : list Z :=
  match k with
  | O => []
  | S k' => z :: upto k' (z + 1)
  end.

(** The percentage computed exactly from the scale position
    [raw / 51200]. *)
Definition exact_percent (raw : Z) : Z :=
  Codec.klfPositionToPercent (raw # 51200).

(** The check made on every position of the gateway's scale: the double
    computation yields a percentage in [[0,100]], and it is the exactly
    computed one, or one less where [(1 - raw / 51200) * 100] is a tie. *)
Definition scale_percent_ok (raw : Z) : bool :=
  match Binary64.klfPositionToPercent (Binary64.on_scale raw) with
  | Some r =>
      (0 <=? r) && (r <=? 100) &&
      ((r =? exact_percent raw) ||
       (raw mod 512 =? 256) && (r =? exact_percent raw - 1))
  | None => false
  end.

(** The distance a position of the scale moves when it is converted to a
    percentage and back, all in binary64. *)
Definition scale_roundtrip_error (raw : Z) : option Q :=
  match Binary64.klfPositionToPercent (Binary64.on_scale raw) with
  | Some r =>
      match Binary64.to_Q (Binary64.percentToKlfPosition (Binary64.of_Z r)),
            Binary64.to_Q (Binary64.on_scale raw) with
      | Some back, Some x => Some (Qabs (back - x))
      | _, _ => None
      end
  | None => None
  end.

Definition scale_roundtrip_ok (raw : Z) : bool :=
  match scale_roundtrip_error raw with
  | Some e => Qle_bool e ((1 # 200) + (1 # 1000000000000000))
  | None => false
  end.

(** A code unit that a regular expression reads as an operator. *)
Definition regex_operator (c : ascii) : bool :=
  match c with
  | "\" | "^" | "$" | "." | "|" | "?" | "*" | "+"
  | "(" | ")" | "[" | "]" | "{" | "}" => true
  | _ => false
  end%char.

(** A string that [new RegExp] reads as itself: it holds no operator. *)
Fixpoint regex_literal (s : string) : bool :=
  match s with
  | EmptyString => true
  | String c s' => negb (regex_operator c) && regex_literal s'
  end.

(* ===================================================================== *)
(** * Properties of the position codec *)
(* ===================================================================== *)

Section CodecFacts.

Local Open Scope Q_scope.

(** [Math.round] brackets its argument: [r - 1/2 <= x < r + 1/2]. *)
Lemma Math_round_bracket (x : Q) :
  inject_Z (Codec.Math_round x) - (1 # 2) <= x /\
  x < inject_Z (Codec.Math_round x) + (1 # 2).
Proof.
  unfold Codec.Math_round.
  pose proof (Qfloor_le (x + (1 # 2))) as Hlo.
  pose proof (Qlt_floor (x + (1 # 2))) as Hhi.
  rewrite inject_Z_plus in Hhi. change (inject_Z 1) with 1%Q in Hhi.
  split; lra.
Qed.

Lemma Math_round_inject_Z (z : Z) : Codec.Math_round (inject_Z z) = z.
Proof.
  destruct (Math_round_bracket (inject_Z z)) as [Hlo Hhi].
  set (r := Codec.Math_round (inject_Z z)) in *.
  assert (inject_Z r < inject_Z (z + 1)) as H1
    by (rewrite inject_Z_plus; change (inject_Z 1) with 1%Q; lra).
  assert (inject_Z z < inject_Z (r + 1)) as H2
    by (rewrite inject_Z_plus; change (inject_Z 1) with 1%Q; lra).
  rewrite <- Zlt_Qlt in H1, H2. lia.
Qed.

#[global] Instance Math_round_Proper : Proper (Qeq ==> eq) Codec.Math_round.
Proof. intros x y E. unfold Codec.Math_round. now rewrite E. Qed.

Lemma Math_round_nonneg (x : Q) :
  (0 <= Codec.Math_round x)%Z <-> - (1 # 2) <= x.
Proof.
  destruct (Math_round_bracket x) as [Hlo Hhi].
  set (r := Codec.Math_round x) in *. split; intros H.
  - rewrite Zle_Qle in H. change (inject_Z 0) with 0%Q in H. lra.
  - assert (inject_Z (-1) < inject_Z r) as H1
      by (change (inject_Z (-1)) with (-1)%Q; lra).
    rewrite <- Zlt_Qlt in H1. lia.
Qed.

Lemma Math_round_le (x : Q) (b : Z) :
  (Codec.Math_round x <= b)%Z <-> x < inject_Z b + (1 # 2).
Proof.
  destruct (Math_round_bracket x) as [Hlo Hhi].
  set (r := Codec.Math_round x) in *. split; intros H.
  - rewrite Zle_Qle in H. lra.
  - assert (inject_Z r < inject_Z (b + 1)) as H1
      by (rewrite inject_Z_plus; change (inject_Z 1) with 1%Q; lra).
    rewrite <- Zlt_Qlt in H1. lia.
Qed.

Lemma binary64_roundtrip_101 : Binary64.roundtrip_upto 101 = true.
Proof. vm_compute. reflexivity. Qed.

(** Rounding [n / 2^k] half up, on integers. *)
Lemma half_up_bracket (n k : Z) :
  (0 < k)%Z ->
  let r := ((2 * n + 2 ^ k) / 2 ^ (k + 1))%Z in
  inject_Z r - (1 # 2) <= n # Z.to_pos (2 ^ k) /\
  n # Z.to_pos (2 ^ k) < inject_Z r + (1 # 2).
Proof.
  intros Hk r.
  assert (0 < 2 ^ k)%Z as HP by (apply Z.pow_pos_nonneg; lia).
  assert (2 ^ (k + 1) = 2 * 2 ^ k)%Z as HD
    by (rewrite Z.pow_add_r by lia; lia).
  pose proof (Z.mul_div_le (2 * n + 2 ^ k) (2 ^ (k + 1))) as Hlo.
  pose proof (Z.mul_succ_div_gt (2 * n + 2 ^ k) (2 ^ (k + 1))) as Hhi.
  fold r in Hlo, Hhi. rewrite HD in Hlo, Hhi.
  unfold Qle, Qlt, Qminus, Qplus, Qopp, inject_Z. cbn [Qnum Qden].
  rewrite !Pos2Z.inj_mul, !Z2Pos.id by exact HP.
  split; nia.
Qed.

(** [Math.round] on a finite double brackets its exact value; it is
    undefined exactly on [NaN] and the infinities. *)
Lemma Math_round_float (x : float) :
  match Binary64.to_Q x with
  | Some y =>
      exists r, Binary64.Math_round x = Some r /\
        inject_Z r - (1 # 2) <= y /\ y < inject_Z r + (1 # 2)
  | None => Binary64.Math_round x = None
  end.
Proof.
  unfold Binary64.to_Q, Binary64.Math_round.
  destruct (Prim2SF x) as [s| s | |s m e]; try reflexivity.
  - exists 0%Z. split; [reflexivity|]. split; reflexivity || discriminate.
  - cbv zeta. set (n := if s then Z.neg m else Z.pos m).
    destruct (0 <=? e)%Z eqn:E.
    + eexists. split; [reflexivity|]. split; lra.
    + apply Z.leb_gt in E. eexists. split; [reflexivity|].
      replace (1 - e)%Z with (- e + 1)%Z by lia.
      apply half_up_bracket. lia.
Qed.

Lemma upto_In (k : nat) : forall z n : Z,
  (z <= n < z + Z.of_nat k)%Z -> In n (upto k z).
Proof.
  induction k as [|k IH]; intros z n Hn; [lia|].
  simpl. destruct (Z.eq_dec z n) as [E|E]; [now left|].
  right. apply IH. lia.
Qed.

Lemma scale_percent_all :
  forallb scale_percent_ok (upto (Z.to_nat 51201) 0) = true.
Proof. vm_compute. reflexivity. Qed.

Lemma scale_roundtrip_all :
  forallb scale_roundtrip_ok (upto (Z.to_nat 51201) 0) = true.
Proof. vm_compute. reflexivity. Qed.

End CodecFacts.

(** C2.  Round-trip law: for every integer percentage [p] in [[0,100]],
    converting to the gateway scale and back returns exactly [p], both in
    exact arithmetic and in the binary64 arithmetic of the interpreter. *)
Theorem percent_roundtrip (p : Z) :
  0 <= p <= 100 ->
  Codec.klfPositionToPercent (Codec.percentToKlfPosition (inject_Z p)) = p /\
  Binary64.klfPositionToPercent
    (Binary64.percentToKlfPosition (Binary64.of_Z p)) = Some p.
Proof.
  intros Hp. split.
  - unfold Codec.klfPositionToPercent, Codec.percentToKlfPosition.
    assert (((1 - (1 - inject_Z p / 100)) * 100 == inject_Z p)%Q) as ->
      by field.
    apply Math_round_inject_Z.
  - pose proof binary64_roundtrip_101 as H.
    unfold Binary64.roundtrip_upto in H.
    rewrite forallb_forall in H.
    specialize (H p).
    destruct (Binary64.klfPositionToPercent _) as [p'|].
    + f_equal. apply Z.eqb_eq, H.
      replace p with (Z.of_nat (Z.to_nat p)) by lia.
      apply in_map, in_seq. lia.
    + exfalso. enough (false = true) by discriminate. apply H.
      replace p with (Z.of_nat (Z.to_nat p)) by lia.
      apply in_map, in_seq. lia.
Qed.

Lemma percent_roundtrip_witness :
  Codec.klfPositionToPercent (Codec.percentToKlfPosition (inject_Z 37)) = 37 /\
  Binary64.klfPositionToPercent
    (Binary64.percentToKlfPosition (Binary64.of_Z 37)) = Some 37.
Proof. apply (percent_roundtrip 37). lia. Defined.

(** C6, as stated, fails: the code rounds but does not clamp.  For the raw
    position 2 the result is -100, where the clamped reading gives 0. *)
Lemma klfPositionToPercent_not_clamped :
  Codec.klfPositionToPercent 2 = -100 /\
  Binary64.klfPositionToPercent 2%float = Some (-100) /\
  Codec.toPublic_clamped 2 = 0 /\
  ~ (0 <= Codec.klfPositionToPercent 2 <= 100).
Proof.
  assert (Codec.klfPositionToPercent 2 = -100) as E by reflexivity.
  split; [exact E|]. split; [vm_compute; reflexivity|].
  split; [reflexivity|]. rewrite E. lia.
Qed.

(** C6, amended.  [klfPositionToPercent] rounds and does not clamp, and it
    works on doubles.  For every double [raw], with [y] the double that
    [(1 - raw) * 100] evaluates to, the result is the integer [r] with
    [r - 1/2 <= y < r + 1/2]; it lies in [[0,100]] exactly when
    [-1/2 <= y < 100 + 1/2], and it is no integer when [y] is [NaN] or
    infinite.  For every position of the gateway's scale, [n / 51200] with
    [0 <= n <= 51200], the result lies in [[0,100]]; it is the percentage
    computed exactly from [n / 51200], or one less at a tie of the exact
    computation ([n mod 512 = 256]), where the two roundings of the double
    computation can fall below the tie. *)
Theorem klfPositionToPercent_rounds (raw : float) (n : Z) :
  match Binary64.to_Q (PrimFloat.mul (PrimFloat.sub 1%float raw) 100%float)
  with
  | Some y =>
      exists r, Binary64.klfPositionToPercent raw = Some r /\
        (inject_Z r - (1 # 2) <= y /\ y < inject_Z r + (1 # 2))%Q /\
        (0 <= r <= 100 <-> (- (1 # 2) <= y /\ y < 100 + (1 # 2))%Q)
  | None => Binary64.klfPositionToPercent raw = None
  end /\
  (0 <= n <= 51200 ->
   exists r, Binary64.klfPositionToPercent (Binary64.on_scale n) = Some r /\
     0 <= r <= 100 /\
     (r = exact_percent n \/ n mod 512 = 256 /\ r = exact_percent n - 1)).
Proof.
  split.
  - unfold Binary64.klfPositionToPercent.
    pose proof (Math_round_float
                  (PrimFloat.mul (PrimFloat.sub 1%float raw) 100%float)) as H.
    destruct (Binary64.to_Q _) as [y|]; [|exact H].
    destruct H as (r & Hr & Hlo & Hhi). exists r.
    split; [exact Hr|]. split; [split; assumption|].
    split.
    + intros [H0 H100]. rewrite Zle_Qle in H0, H100.
      change (inject_Z 0) with 0%Q in H0.
      change (inject_Z 100) with 100%Q in H100. split; lra.
    + intros [Ha Hb]. split.
      * assert (inject_Z (-1) < inject_Z r)%Q as H1
          by (change (inject_Z (-1)) with (-1)%Q; lra).
        rewrite <- Zlt_Qlt in H1. lia.
      * assert (inject_Z r < inject_Z 101)%Q as H1
          by (change (inject_Z 101) with 101%Q; lra).
        rewrite <- Zlt_Qlt in H1. lia.
  - intros Hn. pose proof scale_percent_all as Hall.
    rewrite forallb_forall in Hall.
    specialize (Hall n (upto_In (Z.to_nat 51201) 0 n ltac:(lia))).
    unfold scale_percent_ok in Hall.
    destruct (Binary64.klfPositionToPercent (Binary64.on_scale n)) as [r|];
      [|discriminate Hall].
    exists r. split; [reflexivity|].
    apply andb_true_iff in Hall as [Hrange Hexact].
    apply andb_true_iff in Hrange as [H0 H100].
    apply Z.leb_le in H0, H100. split; [lia|].
    apply orb_true_iff in Hexact as [He | He].
    + left. now apply Z.eqb_eq.
    + right. apply andb_true_iff in He as [Ht He].
      apply Z.eqb_eq in Ht, He. auto.
Qed.

Lemma klfPositionToPercent_rounds_witness :
  exists r, Binary64.klfPositionToPercent (Binary64.on_scale 21760) = Some r /\
    0 <= r <= 100 /\
    (r = exact_percent 21760 \/
     21760 mod 512 = 256 /\ r = exact_percent 21760 - 1).
Proof. apply (klfPositionToPercent_rounds 0%float 21760). lia. Defined.

(* ===================================================================== *)
(** * Properties of the device registry *)
(* ===================================================================== *)

Section RegistryFacts.

Implicit Types (r : DeviceRegistry) (d prev : DeviceState) (a b : number).

Lemma strict_neq_false a b : strict_neq a b = false <-> a = b /\ b <> NaN.
Proof.
  destruct a as [x| |], b as [y| |]; simpl; split;
    try discriminate; try (intros [H1 H2]; congruence);
    try (intros _; split; [reflexivity | discriminate]).
  - intros H. apply negb_false_iff, Z.eqb_eq in H.
    split; [congruence | discriminate].
  - intros [[= ->] _]. now rewrite Z.eqb_refl.
Qed.

(** No change is seen exactly when the six fields are equal and neither
    percentage is [NaN]. *)
Lemma hasStateChanged_false prev d :
  hasStateChanged prev d = false <-> semantic_fields_equal prev d /\ comparable d.
Proof.
  unfold hasStateChanged, semantic_fields_equal, comparable.
  rewrite !orb_false_iff, !strict_neq_false, !bool_decide_eq_false.
  split.
  - intros ((((([H1 N1] & [H2 N2]) & H3) & H4) & H5) & H6).
    repeat split; try assumption;
      match goal with
      | H : ~ (?x <> ?y) |- ?x = ?y => destruct (decide (x = y)); tauto
      end.
  - intros ((H1 & H2 & H3 & H4 & H5 & H6) & N1 & N2).
    repeat split; try assumption; intros H; now apply H.
Qed.

Lemma hasStateChanged_true prev d :
  hasStateChanged prev d = true <->
  ~ (semantic_fields_equal prev d /\ comparable d).
Proof.
  rewrite <- hasStateChanged_false. destruct (hasStateChanged prev d);
    split; congruence.
Qed.

Lemma hasStateChanged_differs prev d :
  ~ semantic_fields_equal prev d -> hasStateChanged prev d = true.
Proof. intros H. apply hasStateChanged_true. tauto. Qed.

Lemma comparable_has_NaN d : comparable d <-> has_NaN d = false.
Proof.
  unfold comparable, has_NaN.
  destruct (position d), (targetPosition d); simpl; split;
    try reflexivity; try discriminate; try tauto;
    intros _; split; discriminate.
Qed.

Lemma hasStateChanged_NaN prev d :
  has_NaN d = true -> hasStateChanged prev d = true.
Proof.
  intros H. apply hasStateChanged_true. intros [_ Hc].
  apply comparable_has_NaN in Hc. congruence.
Qed.

Lemma markDirty_devices r : devices (markDirty r) = devices r.
Proof. unfold markDirty, scheduleSave. simpl. now destruct (saveTimer r). Qed.

Lemma markDirty_dirty r : dirty (markDirty r) = true.
Proof. unfold markDirty, scheduleSave. simpl. now destruct (saveTimer r). Qed.

End RegistryFacts.

(** C1 fails on the code for a device whose position is not known.  The
    state built from such a product has [NaN] in both percentages.  Once it
    is stored, and the registry saved, reporting the very same state again
    is no no-op: all six semantic fields are those of the stored entry, yet
    the state is stored again, the registry is marked dirty and the event is
    emitted, because [NaN !== NaN]. *)
Lemma updateDevice_reemits_unknown_position :
  let r := set_dirty false (updateDevice skylight (new_registry LBPDATA)).1 in
  KLF.productToDeviceState 1000 skylight_product = skylight /\
  getDevice 2 r = Some skylight /\
  semantic_fields_equal skylight skylight /\
  (updateDevice skylight r).2 =
    [deviceStateChanged (mkChange 2 (Some skylight) skylight)] /\
  dirty r = false /\
  dirty (updateDevice skylight r).1 = true.
Proof. repeat split. Qed.

(** C8, as stated, fails: an update that differs from the stored entry only
    in [lastUpdate], the limits and the serial number is dropped, so the
    registry keeps the old values. *)
Lemma updateDevice_drops_nonsemantic_update :
  let r := (updateDevice kitchen (new_registry LBPDATA)).1 in
  semantic_fields_equal kitchen kitchen_later /\
  kitchen_later <> kitchen /\
  (updateDevice kitchen_later r).2 = [] /\
  getDevice 0 (updateDevice kitchen_later r).1 = Some kitchen /\
  getDevice 0 (updateDevice kitchen_later r).1 <> Some kitchen_later.
Proof.
  simpl. split; [repeat split|]. split; [discriminate|].
  split; [reflexivity|]. split; [reflexivity|].
  change (getDevice 0 _) with (Some kitchen). discriminate.
Qed.

(** C8, amended.  When [updateDevice] is called with a device whose
    semantic fields equal the stored entry, both percentages being numbers,
    the registry is left exactly as it was, whatever the other fields are:
    the stored entry keeps its old timestamp, limits and serial number, and
    no event is emitted.  A device that is new or differs in a semantic
    field is stored with all its fields, and one event is emitted. *)
Theorem updateDevice_stores_only_semantic_changes
    (d : DeviceState) (r : DeviceRegistry) :
  (forall prev, devices r !! nodeId d = Some prev ->
     semantic_fields_equal prev d -> comparable d ->
     (updateDevice d r).1 = r /\
     getDevice (nodeId d) (updateDevice d r).1 = Some prev /\
     (updateDevice d r).2 = []) /\
  ((devices r !! nodeId d = None \/
    exists prev, devices r !! nodeId d = Some prev /\
                 ~ semantic_fields_equal prev d) ->
   getDevice (nodeId d) (updateDevice d r).1 = Some d /\
   length (updateDevice d r).2 = 1%nat).
Proof.
  split.
  - intros prev Hprev Heq Hc.
    assert (hasStateChanged prev d = false) as Hno
      by (apply hasStateChanged_false; auto).
    unfold updateDevice, getDevice. rewrite Hprev, Hno. simpl. auto.
  - intros [Hnone | (prev & Hprev & Hne)]; unfold updateDevice, getDevice.
    + rewrite Hnone. simpl. rewrite markDirty_devices. simpl.
      split; [apply lookup_insert_eq | reflexivity].
    + apply hasStateChanged_differs in Hne. rewrite Hprev, Hne. simpl.
      rewrite markDirty_devices. simpl.
      split; [apply lookup_insert_eq | reflexivity].
Qed.

Lemma updateDevice_stores_only_semantic_changes_witness :
  let r := (updateDevice kitchen (new_registry LBPDATA)).1 in
  ((updateDevice kitchen_later r).1 = r /\
   getDevice 0 (updateDevice kitchen_later r).1 = Some kitchen /\
   (updateDevice kitchen_later r).2 = []) /\
  (getDevice 0 (updateDevice kitchen_opened r).1 = Some kitchen_opened /\
   length (updateDevice kitchen_opened r).2 = 1%nat).
Proof.
  intros r. split.
  - apply (proj1 (updateDevice_stores_only_semantic_changes kitchen_later r)
             kitchen).
    + reflexivity.
    + repeat split.
    + split; discriminate.
  - apply (proj2 (updateDevice_stores_only_semantic_changes kitchen_opened r)).
    right. exists kitchen. split; [reflexivity|].
    intros (H & _). discriminate H.
Defined.

Section BulkUpdate.

Implicit Types (r : DeviceRegistry) (d : DeviceState) (L : list DeviceState).




End BulkUpdate.

Section BulkUpdateOthers.

Implicit Types (r : DeviceRegistry) (d : DeviceState) (L : list DeviceState).


End BulkUpdateOthers.




Section Persistence.

Implicit Types (r : DeviceRegistry) (d : Disk).

(** The calls made by [save]: look for the directory, create it when
    missing, and, unless that failed, write the document to
    [persistPath]. *)
Lemma save_trace now r d :
  let dir := path_dirname (persistPath r) in
  let write := writeFileSync (persistPath r) (snapshot now r) in
  trace (save now r d).1.2 =
  trace d ++
  existsSync dir ::
  (if present dir d then [write]
   else mkdirSync dir :: (if creatable d then [write] else [])).
Proof.
  unfold save, snapshot, present, fs_writeFileSync, fs_mkdirSync,
    fs_existsSync, fs_log.
  simpl. destruct (_ || _); simpl.
  - destruct (writable d); simpl; rewrite <- ?app_assoc; reflexivity.
  - destruct (creatable d); simpl; [|rewrite <- ?app_assoc; reflexivity].
    destruct (writable d); simpl; rewrite <- ?app_assoc; reflexivity.
Qed.

(** [save] is left by an exception exactly when the directory is missing
    and cannot be created; the document reaches the disk, and [dirty] is
    cleared, exactly when the directory is there or can be created and the
    write succeeds. *)
Lemma save_outcome now r d :
  let dir := path_dirname (persistPath r) in
  let reached := present dir d || creatable d in
  (save now r d).2 = (if reached then returns else throws) /\
  (save now r d).1.1 =
    (if reached && writable d then set_dirty false r else r) /\
  files (save now r d).1.2 =
    (if reached && writable d
     then <[persistPath r := snapshot now r]> (files d) else files d).
Proof.
  unfold save, snapshot, present, fs_writeFileSync, fs_mkdirSync,
    fs_existsSync, fs_log.
  simpl. destruct (_ || _); simpl.
  - destruct (writable d); simpl; auto.
  - destruct (creatable d); simpl; [|auto].
    destruct (writable d); simpl; auto.
Qed.

(** Each way of persisting is [save] on the registry with the timer flag
    possibly cleared, or nothing when the registry is clean. *)
Lemma persist_cases how now r d :
  exists r0,
    devices r0 = devices r /\ scenes r0 = scenes r /\
    persistPath r0 = persistPath r /\ dirty r0 = dirty r /\
    (how <> by_save -> saveTimer r0 = false) /\
    ((how = by_save \/ dirty r = true) -> persist how now r d = save now r0 d)
    /\ (how <> by_save -> dirty r = false ->
        persist how now r d = (r0, d, returns)).
Proof.
  destruct how; simpl.
  - exists r. repeat split; auto; congruence.
  - exists (set_saveTimer false r). unfold saveTimer_fired. simpl.
    repeat split; auto.
    + intros [H|H]; [discriminate | now rewrite H].
    + intros _ H. now rewrite H.
  - unfold flush. destruct (saveTimer r) eqn:E.
    + exists (set_saveTimer false r). simpl. repeat split; auto.
      * intros [H|H]; [discriminate | now rewrite H].
      * intros _ H. now rewrite H.
    + exists r. repeat split; auto.
      * intros [H|H]; [discriminate | now rewrite H].
      * intros _ H. now rewrite H.
  - unfold destroy, flush. destruct (saveTimer r) eqn:E.
    + exists (set_saveTimer false r). simpl. repeat split; auto.
      * intros [H|H]; [discriminate | now rewrite H].
      * intros _ H. now rewrite H.
    + exists r. repeat split; auto.
      * intros [H|H]; [discriminate | now rewrite H].
      * intros _ H. now rewrite H.
Qed.

Lemma persist_whether how r :
  (how = by_save \/ dirty r = true) \/ (how <> by_save /\ dirty r = false).
Proof.
  destruct how, (dirty r); auto; right; split; auto; discriminate.
Qed.

End Persistence.

(** C4, as stated, fails: saving a fresh registry to an empty disk makes
    three calls, the last of which writes the snapshot file in place; there
    is no temporary file and no rename. *)
Lemma save_writes_in_place :
  let r := new_registry LBPDATA in
  trace (save 0 r empty_disk).1.2 =
    [existsSync LBPDATA; mkdirSync LBPDATA;
     writeFileSync (persistPath r) (snapshot 0 r)] /\
  ~ temp_then_rename (persistPath r) (trace (save 0 r empty_disk).1.2).
Proof.
  simpl. split; [reflexivity|]. intros [_ H]. vm_compute in H. discriminate H.
Qed.

(** C4, amended.  Every persistence of the registry snapshot ([save], the
    debounce timer, [flush], [destroy]) makes no [renameSync] call and
    writes no file other than the snapshot path.  A clean registry is not
    persisted by the timer, [flush] or [destroy]: no call is made.
    Otherwise the calls are, in this order, one [existsSync] of the data
    directory, one [mkdirSync] of it when it is missing, and one
    [writeFileSync] of the whole document directly to the snapshot path,
    which is the last call.  When the directory is missing and cannot be
    created, the exception of [mkdirSync] leaves the call: nothing is
    written and the registry stays as dirty as it was. *)
Theorem persist_writes_snapshot_directly
    (how : Persist) (now : Z) (r : DeviceRegistry) (d : Disk) :
  let dir := path_dirname (persistPath r) in
  let write := writeFileSync (persistPath r) (snapshot now r) in
  let result := persist how now r d in
  exists calls,
    trace result.1.2 = trace d ++ calls /\
    existsb is_rename calls = false /\
    (forall p doc, writeFileSync p doc ∈ calls ->
                   p = persistPath r /\ doc = snapshot now r) /\
    (how <> by_save -> dirty r = false ->
     calls = [] /\ result.2 = returns) /\
    (how = by_save \/ dirty r = true ->
     (present dir d = true ->
      calls = [existsSync dir; write] /\ result.2 = returns) /\
     (present dir d = false -> creatable d = true ->
      calls = [existsSync dir; mkdirSync dir; write] /\
      result.2 = returns) /\
     (present dir d = false -> creatable d = false ->
      calls = [existsSync dir; mkdirSync dir] /\ result.2 = throws /\
      files result.1.2 = files d /\ dirty result.1.1 = dirty r)).
Proof.
  cbv zeta.
  destruct (persist_cases how now r d)
    as (r0 & Hdev & Hsc & Hp & Hd & _ & Hsave & Hclean).
  assert (snapshot now r0 = snapshot now r) as Hsnap
    by (unfold snapshot; now rewrite Hdev, Hsc).
  destruct (persist_whether how r) as [Hyes | [Hn Hc]].
  - rewrite (Hsave Hyes).
    pose proof (save_trace now r0 d) as Ht.
    destruct (save_outcome now r0 d) as (Hcompl & Hreg & Hfiles).
    cbv zeta in Ht, Hcompl, Hreg, Hfiles.
    rewrite Hp, Hsnap in Ht. rewrite Hp in Hcompl, Hreg, Hfiles.
    eexists. split; [exact Ht|].
    destruct (present (path_dirname (persistPath r)) d) eqn:Epres;
      [|destruct (creatable d) eqn:Ecre]; simpl in *.
    + split; [reflexivity|]. split.
      { intros p doc Hin. apply elem_of_cons in Hin as [Hin|Hin];
          [discriminate Hin|].
        apply list_elem_of_singleton in Hin. now inversion Hin. }
      split; [intros Hn; destruct Hyes; congruence|].
      intros _. split; [auto|]. split; discriminate.
    + split; [reflexivity|]. split.
      { intros p doc Hin. apply elem_of_cons in Hin as [Hin|Hin];
          [discriminate Hin|].
        apply elem_of_cons in Hin as [Hin|Hin]; [discriminate Hin|].
        apply list_elem_of_singleton in Hin. now inversion Hin. }
      split; [intros Hn; destruct Hyes; congruence|].
      intros _. split; [discriminate|]. split; [auto | discriminate].
    + split; [reflexivity|]. split.
      { intros p doc Hin. apply elem_of_cons in Hin as [Hin|Hin];
          [discriminate Hin|].
        apply list_elem_of_singleton in Hin. discriminate Hin. }
      split; [intros Hn; destruct Hyes; congruence|].
      intros _. split; [discriminate|]. split; [discriminate|].
      intros _ _. rewrite Hreg, Hfiles. auto.
  - rewrite (Hclean Hn Hc). exists []. simpl. rewrite app_nil_r.
    split; [reflexivity|]. split; [reflexivity|].
    split; [intros p doc Hin; inversion Hin|].
    split; [auto|]. intros [E|E]; congruence.
Qed.

Lemma persist_writes_snapshot_directly_witness :
  let r := (updateDevice kitchen (new_registry LBPDATA)).1 in
  exists calls,
    trace (persist by_flush 5000 r empty_disk).1.2 =
      trace empty_disk ++ calls /\
    existsb is_rename calls = false /\
    calls = [existsSync LBPDATA; mkdirSync LBPDATA;
             writeFileSync (persistPath r) (snapshot 5000 r)].
Proof.
  intros r.
  destruct (persist_writes_snapshot_directly by_flush 5000 r empty_disk)
    as (calls & H1 & H2 & _ & _ & H4).
  destruct H4 as (_ & H5 & _); [right; reflexivity|].
  destruct H5 as [H5 _]; [reflexivity | reflexivity|].
  exists calls. auto.
Defined.

(* ===================================================================== *)
(** * Properties of the gateway session *)
(* ===================================================================== *)

(** C7 fails on the code: a product without limitation arrays gets the
    defaults 0 and 1 of the gateway scale, and the inverting codec turns
    them into [limitationMin = 100] and [limitationMax = 0]. *)
Lemma productToDeviceState_inverts_limits :
  let d := KLF.productToDeviceState 1000 kitchen_product in
  limitationMin d = 100 /\
  limitationMax d = 0 /\
  Binary64.klfPositionToPercent 0%float = Some 100 /\
  Binary64.klfPositionToPercent 1%float = Some 0 /\
  ~ (0 <= limitationMin d <= limitationMax d /\ limitationMax d <= 100).
Proof.
  intros d.
  assert (limitationMin d = 100) as Hmin by reflexivity.
  assert (limitationMax d = 0) as Hmax by reflexivity.
  split; [exact Hmin|]. split; [exact Hmax|].
  split; [vm_compute; reflexivity|]. split; [vm_compute; reflexivity|].
  rewrite Hmin, Hmax. lia.
Qed.

Section Backoff.

Import KLF.

Implicit Types (k : KLFConnection).

Lemma scheduleReconnect_step k :
  shuttingDown k = false -> reconnecting k = false ->
  scheduleReconnect k =
  (with_reconnect true (reconnectAttempt k + 1) true k,
   [setTimeout_reconnect
      (spec_delay (reconnectBaseDelay (config k))
                  (reconnectMaxDelay (config k))
                  (reconnectAttempt k + 1))]).
Proof.
  intros Hs Hr. unfold scheduleReconnect, spec_delay. now rewrite Hs, Hr.
Qed.




End Backoff.



Section Commands.

Import KLF.

Local Open Scope Q_scope.

Lemma clamp_0_100_range (position : Q) :
  0 <= Codec.clamp_0_100 position /\ Codec.clamp_0_100 position <= 100.
Proof.
  unfold Codec.clamp_0_100.
  destruct (Q.max_spec 0 (Qmin 100 position)) as [[H1 H2]|[H1 H2]];
  destruct (Q.min_spec 100 position) as [[H3 H4]|[H3 H4]];
    rewrite H2; rewrite ?H4 in *; split; lra.
Qed.

Lemma clamp_0_100_cases (position : Q) :
  (position < 0 -> Codec.clamp_0_100 position == 0) /\
  (0 <= position /\ position <= 100 -> Codec.clamp_0_100 position == position) /\
  (100 < position -> Codec.clamp_0_100 position == 100).
Proof.
  unfold Codec.clamp_0_100.
  destruct (Q.max_spec 0 (Qmin 100 position)) as [[H1 H2]|[H1 H2]];
  destruct (Q.min_spec 100 position) as [[H3 H4]|[H3 H4]];
    rewrite H2; rewrite ?H4 in *; repeat split; intros; lra.
Qed.

Lemma find_none_iff (nodeId : Z) (ps : list Product) :
  find (fun p => (NodeID p =? nodeId)%Z) ps = None <->
  forall p, p ∈ ps -> NodeID p <> nodeId.
Proof.
  split.
  - intros H p Hin. apply list_elem_of_In in Hin.
    pose proof (find_none _ _ H p Hin) as E. simpl in E.
    now apply Z.eqb_neq.
  - intros H. destruct (find _ ps) as [p|] eqn:E; [|reflexivity].
    apply find_some in E as [Hin E]. apply Z.eqb_eq in E.
    apply list_elem_of_In in Hin. now apply H in Hin.
Qed.

End Commands.

(** C9, as stated, fails: in a session that is connected but has not run
    discovery, a node id matches no discovered product, yet the error is
    the not-connected one and not the unknown-node one. *)
Lemma setDevicePosition_undiscovered_not_connected :
  KLF.connected session_undiscovered = true /\
  KLF.products session_undiscovered = None /\
  KLF.setDevicePosition None 0 50 session_undiscovered =
    (KLF.rejected KLF.NotConnected, []) /\
  (KLF.setDevicePosition None 0 50 session_undiscovered).1 <>
    KLF.rejected (KLF.DeviceNotFound 0).
Proof. repeat split; try reflexivity. discriminate. Qed.

(** C9, amended.  [setDevicePosition] fails with the not-connected error
    whenever the session is not connected or holds no discovered product
    list, and with the unknown-node error whenever the session is connected,
    holds a product list and the node id matches none of its products; no
    command is issued in either case.  Otherwise it issues exactly one
    set-target-position command, for that node, with the raw position
    [1 - c/100] where [c] is the percentage clamped to [[0,100]], and it
    fails only if that command is rejected. *)
Theorem setDevicePosition_contract
    (reply : option string) (nodeId : Z) (position : Q)
    (k : KLF.KLFConnection) :
  (KLF.connected k = false \/ KLF.products k = None ->
   KLF.setDevicePosition reply nodeId position k =
     (KLF.rejected KLF.NotConnected, [])) /\
  (forall ps, KLF.connected k = true -> KLF.products k = Some ps ->
     (forall p, p ∈ ps -> KLF.NodeID p <> nodeId) ->
     KLF.setDevicePosition reply nodeId position k =
       (KLF.rejected (KLF.DeviceNotFound nodeId), [])) /\
  (forall ps p, KLF.connected k = true -> KLF.products k = Some ps ->
     p ∈ ps -> KLF.NodeID p = nodeId ->
     exists c raw : Q,
       KLF.setDevicePosition reply nodeId position k =
         (match reply with
          | None => KLF.resolved tt
          | Some message => KLF.rejected (KLF.GatewayFailure message)
          end,
          [KLF.setTargetPositionAsync nodeId raw]) /\
       (raw == 1 - c / 100)%Q /\
       (0 <= c /\ c <= 100)%Q /\
       ((position < 0)%Q -> (c == 0)%Q) /\
       ((0 <= position /\ position <= 100)%Q -> (c == position)%Q) /\
       ((100 < position)%Q -> (c == 100)%Q)).
Proof.
  split; [|split].
  - intros [Hc | Hp]; unfold KLF.setDevicePosition.
    + rewrite Hc. now destruct (KLF.products k).
    + now rewrite Hp.
  - intros ps Hc Hp Hnone. unfold KLF.setDevicePosition.
    rewrite Hp, Hc. simpl.
    apply find_none_iff in Hnone. now rewrite Hnone.
  - intros ps p Hc Hp Hin Hid. unfold KLF.setDevicePosition.
    rewrite Hp, Hc. simpl.
    destruct (find _ ps) as [product|] eqn:E.
    + apply find_some in E as [_ E]. apply Z.eqb_eq in E. rewrite E.
      exists (Codec.clamp_0_100 position),
             (Codec.percentToKlfPosition (Codec.clamp_0_100 position)).
      split; [reflexivity|]. split; [reflexivity|].
      split; [apply clamp_0_100_range|]. apply clamp_0_100_cases.
    + exfalso. apply (proj1 (find_none_iff nodeId ps) E p Hin Hid).
Qed.

Lemma setDevicePosition_contract_witness :
  KLF.setDevicePosition None 0 150 session_undiscovered =
    (KLF.rejected KLF.NotConnected, []) /\
  KLF.setDevicePosition None 7 150 session_ready =
    (KLF.rejected (KLF.DeviceNotFound 7), []) /\
  exists c raw : Q,
    KLF.setDevicePosition None 0 150 session_ready =
      (KLF.resolved tt, [KLF.setTargetPositionAsync 0 raw]) /\
    (raw == 1 - c / 100)%Q /\ (c == 100)%Q.
Proof.
  split; [|split].
  - apply (setDevicePosition_contract None 0 150 session_undiscovered).
    right. reflexivity.
  - apply (proj1 (proj2 (setDevicePosition_contract None 7 150 session_ready))
             [kitchen_product]); try reflexivity.
    intros p Hp. apply list_elem_of_singleton in Hp. subst p. discriminate.
  - destruct (proj2 (proj2 (setDevicePosition_contract None 0 150
                              session_ready))
                [kitchen_product] kitchen_product eq_refl eq_refl)
      as (c & raw & H1 & H2 & _ & _ & _ & H3).
    + apply list_elem_of_singleton. reflexivity.
    + reflexivity.
    + exists c, raw. split; [exact H1|]. split; [exact H2|].
      apply H3. reflexivity.
Defined.

(* ===================================================================== *)
(** * Properties of the bus-command parser *)
(* ===================================================================== *)

Section Parsing.

Import MQTT.

Implicit Types (s w payload : string) (c : ascii).

Lemma lower_isWhiteSpace c : isWhiteSpace (lower c) = isWhiteSpace c.
Proof. destruct c as [[] [] [] [] [] [] [] []]; reflexivity. Qed.

Lemma toLowerCase_app s1 s2 :
  toLowerCase (s1 +:+ s2) = toLowerCase s1 +:+ toLowerCase s2.
Proof. induction s1 as [|c s1 IH]; simpl; [reflexivity | now rewrite IH]. Qed.

Lemma all_ws_toLowerCase w : all_ws w = true -> all_ws (toLowerCase w) = true.
Proof.
  induction w as [|c w IH]; simpl; [reflexivity|].
  rewrite lower_isWhiteSpace. intros H. apply andb_true_iff in H as [-> H].
  now apply IH.
Qed.

Lemma trimStart_ws_app w s : all_ws w = true -> trimStart (w +:+ s) = trimStart s.
Proof.
  induction w as [|c w IH]; simpl; [reflexivity|].
  intros H. apply andb_true_iff in H as [-> H]. now apply IH.
Qed.



(** [parseDeviceCommand] is the keyword table on the trimmed, lower-cased
    payload, and otherwise the integer parse guarded by the range check. *)
Lemma parseDeviceCommand_unfold payload :
  parseDeviceCommand payload =
  match keyword_command (trim (toLowerCase payload)) with
  | Some cmd => Some cmd
  | None =>
      match parseInt payload with
      | Some n => if (0 <=? n)%Z && (n <=? 100)%Z
                  then Some (cmd_number n) else None
      | None => None
      end
  end.
Proof.
  unfold parseDeviceCommand, keyword_command.
  destruct (String.eqb _ "open"); [reflexivity|].
  destruct (String.eqb _ "close"); [reflexivity|].
  destruct (String.eqb _ "stop"); reflexivity.
Qed.





(** The two device patterns cannot match the same topic. *)
Lemma match_numbered_tail head t1 t2 topic a b :
  match_numbered head t1 topic = Some a ->
  match_numbered head t2 topic = Some b -> t1 = t2.
Proof.
  unfold match_numbered. destruct (strip_prefix head topic); [|discriminate].
  destruct (span_digits _) as [ds after].
  destruct (negb _); simpl; [|discriminate].
  destruct (String.eqb after t1) eqn:E1; [|discriminate].
  destruct (String.eqb after t2) eqn:E2; [|discriminate].
  apply String.eqb_eq in E1, E2. congruence.
Qed.

End Parsing.



(* ===================================================================== *)
(** * Further properties of the codec and the type tables *)
(* ===================================================================== *)

Section CodecOrder.

Local Open Scope Q_scope.



Lemma binary64_roundtrip_at (p : Z) :
  (0 <= p <= 100)%Z ->
  Binary64.klfPositionToPercent
    (Binary64.percentToKlfPosition (Binary64.of_Z p)) = Some p.
Proof.
  intros Hp. pose proof binary64_roundtrip_101 as H.
  unfold Binary64.roundtrip_upto in H. rewrite forallb_forall in H.
  specialize (H p).
  assert (In p (map Z.of_nat (seq 0 101))) as Hin.
  { replace p with (Z.of_nat (Z.to_nat p)) by lia.
    apply in_map, in_seq. lia. }
  destruct (Binary64.klfPositionToPercent _) as [p'|].
  - f_equal. apply Z.eqb_eq, H, Hin.
  - specialize (H Hin). discriminate H.
Qed.

End CodecOrder.



(** X2.  In the arithmetic of doubles, converting a position of the
    gateway's scale to a percentage and back moves it by at most
    [1/200 + 10^-15]; the bound [1/200] of exact arithmetic is exceeded at
    some ties, such as [21760 / 51200], which comes back as
    [0.43000000000000005].  A position that is the image of an integer
    percentage is not moved at all. *)
Theorem raw_roundtrip_error (n p : Z) :
  (0 <= n <= 51200 ->
   exists r back x,
     Binary64.klfPositionToPercent (Binary64.on_scale n) = Some r /\
     Binary64.to_Q (Binary64.percentToKlfPosition (Binary64.of_Z r))
       = Some back /\
     Binary64.to_Q (Binary64.on_scale n) = Some x /\
     (Qabs (back - x) <= (1 # 200) + (1 # 1000000000000000))%Q) /\
  (0 <= p <= 100 ->
   let raw := Binary64.percentToKlfPosition (Binary64.of_Z p) in
   exists r, Binary64.klfPositionToPercent raw = Some r /\
     Binary64.percentToKlfPosition (Binary64.of_Z r) = raw) /\
  (exists back x,
     Binary64.klfPositionToPercent (Binary64.on_scale 21760) = Some 57 /\
     Binary64.to_Q (Binary64.percentToKlfPosition (Binary64.of_Z 57))
       = Some back /\
     Binary64.to_Q (Binary64.on_scale 21760) = Some x /\
     ((1 # 200) < Qabs (back - x))%Q).
Proof.
  split; [|split].
  - intros Hn. pose proof scale_roundtrip_all as Hall.
    rewrite forallb_forall in Hall.
    specialize (Hall n (upto_In (Z.to_nat 51201) 0 n ltac:(lia))).
    unfold scale_roundtrip_ok, scale_roundtrip_error in Hall.
    destruct (Binary64.klfPositionToPercent (Binary64.on_scale n)) as [r|];
      [|discriminate Hall].
    destruct (Binary64.to_Q (Binary64.percentToKlfPosition _))
      as [back|] eqn:Eback; [|discriminate Hall].
    destruct (Binary64.to_Q (Binary64.on_scale n)) as [x|] eqn:Ex;
      [|discriminate Hall].
    exists r, back, x. split; [reflexivity|]. split; [exact Eback|].
    split; [reflexivity|]. now apply Qle_bool_iff.
  - intros Hp raw. exists p. subst raw.
    split; [now apply binary64_roundtrip_at | reflexivity].
  - eexists. eexists.
    split; [vm_compute; reflexivity|].
    split; [vm_compute; reflexivity|].
    split; [vm_compute; reflexivity|].
    vm_compute. reflexivity.
Qed.

Lemma raw_roundtrip_error_witness :
  exists r back x,
    Binary64.klfPositionToPercent (Binary64.on_scale 12800) = Some r /\
    Binary64.to_Q (Binary64.percentToKlfPosition (Binary64.of_Z r))
      = Some back /\
    Binary64.to_Q (Binary64.on_scale 12800) = Some x /\
    (Qabs (back - x) <= (1 # 200) + (1 # 1000000000000000))%Q.
Proof. apply (raw_roundtrip_error 12800 0). lia. Defined.

Section StatusTable.

Lemma status_table_errors :
  forallb (fun e => implb (isError e.2) ((2 <=? e.1) && (e.1 <=? 28)))
          STATUS_REPLY_MAP = true.
Proof. vm_compute. reflexivity. Qed.

Lemma status_lookup_in code info :
  status_lookup code = Some info -> In (code, info) STATUS_REPLY_MAP.
Proof.
  unfold status_lookup. intros H.
  apply fmap_Some in H as ([c i] & Hf & ->).
  apply find_some in Hf as [Hin Heq]. simpl in Heq.
  apply Z.eqb_eq in Heq. now subst c.
Qed.

End StatusTable.

(** X3.  [getStatusInfo] returns nothing exactly for the codes 0 and 1.
    It flags an error only for codes between 2 and 28, and a code that the
    table does not list gives a non-error record whose text names the
    code. *)
Theorem getStatusInfo_cases (code : Z) :
  (getStatusInfo code = None <-> code = 0 \/ code = 1) /\
  (forall info, getStatusInfo code = Some info ->
                isError info = true -> 2 <= code <= 28) /\
  (code <> 0 -> code <> 1 -> status_lookup code = None ->
   getStatusInfo code =
     Some (mkStatusInfo false ("Unknown status (" +:+ pretty code +:+ ")"))).
Proof.
  unfold getStatusInfo. split; [|split].
  - destruct (code =? 0) eqn:E0; [apply Z.eqb_eq in E0; simpl; tauto|].
    destruct (code =? 1) eqn:E1; [apply Z.eqb_eq in E1; simpl; tauto|].
    apply Z.eqb_neq in E0, E1. simpl. split; [|lia].
    destruct (status_lookup code); discriminate.
  - intros info. destruct ((code =? 0) || (code =? 1)); [discriminate|].
    destruct (status_lookup code) as [i|] eqn:E.
    + intros [= <-] Herr. apply status_lookup_in in E.
      pose proof status_table_errors as Hall.
      rewrite forallb_forall in Hall. specialize (Hall _ E). simpl in Hall.
      rewrite Herr in Hall. simpl in Hall.
      apply andb_true_iff in Hall as [H1 H2]. lia.
    + intros [= <-]. discriminate.
  - intros H0 H1 Hnone. apply Z.eqb_neq in H0, H1. rewrite H0, H1, Hnone.
    reflexivity.
Qed.

Lemma getStatusInfo_cases_witness :
  getStatusInfo 200 =
    Some (mkStatusInfo false ("Unknown status (" +:+ pretty 200 +:+ ")")) /\
  2 <= 4 <= 28.
Proof.
  split.
  - apply (getStatusInfo_cases 200); [lia | lia | reflexivity].
  - apply (proj1 (proj2 (getStatusInfo_cases 4))
             (mkStatusInfo true "Blocked - obstacle detected"));
      reflexivity.
Defined.

(** X4.  [getDeviceType] gives a known type only for codes between 1 and
    24; every other code, negative or large, is [unknown]. *)
Theorem getDeviceType_unknown (code : Z) :
  getDeviceType code <> UNKNOWN -> 1 <= code <= 24.
Proof.
  intros H. destruct (Z_lt_le_dec code 1) as [Hlo|Hlo].
  - exfalso. apply H. destruct code as [|p|p]; try reflexivity. lia.
  - destruct (Z_lt_le_dec 24 code) as [Hhi|Hhi]; [|lia].
    exfalso. apply H.
    destruct code as [|p|p]; try reflexivity.
    do 5 (destruct p as [p|p|]; try reflexivity; try lia).
Qed.

Lemma getDeviceType_unknown_witness : 1 <= 4 <= 24.
Proof. apply (getDeviceType_unknown 4). discriminate. Defined.

(* ===================================================================== *)
(** * Further properties of discovery and of the registry *)
(* ===================================================================== *)

(** X5.  A device state built from a product keeps the product's node id
    and reports [moving], [online] and [error] from the run status, the
    state and the status reply; when the product's current and target
    positions lie in [[0,1]], both percentages are integers in [[0,100]],
    and a position that is [NaN] gives the percentage [NaN]. *)
Theorem productToDeviceState_fields (now : Z) (product : KLF.Product) :
  let d := KLF.productToDeviceState now product in
  nodeId d = KLF.NodeID product /\
  (moving d = true <-> KLF.RunStatus product <> 0) /\
  (online d = true <-> KLF.State product = 1) /\
  (error d = None <-> KLF.StatusReply product = 0) /\
  (forall q, KLF.CurrentPosition product = Some q ->
     (0 <= q /\ q <= 1)%Q ->
     exists z, position d = Num z /\ 0 <= z <= 100) /\
  (forall q, KLF.TargetPosition product = Some q ->
     (0 <= q /\ q <= 1)%Q ->
     exists z, targetPosition d = Num z /\ 0 <= z <= 100) /\
  (KLF.CurrentPosition product = None -> position d = NaN) /\
  (KLF.TargetPosition product = None -> targetPosition d = NaN).
Proof.
  assert (forall raw : Q, (0 <= raw /\ raw <= 1)%Q ->
            0 <= Codec.klfPositionToPercent raw <= 100) as Hrange.
  { intros raw [H0 H1]. unfold Codec.klfPositionToPercent. split.
    - apply Math_round_nonneg. lra.
    - apply Math_round_le. change (inject_Z 100) with 100%Q. lra. }
  simpl. split; [reflexivity|].
  split; [rewrite negb_true_iff; apply Z.eqb_neq|].
  split; [apply Z.eqb_eq|].
  split.
  { destruct (KLF.StatusReply product =? 0) eqn:E; simpl.
    - apply Z.eqb_eq in E. tauto.
    - apply Z.eqb_neq in E. split; [discriminate | tauto]. }
  split; [|split; [|split]].
  - intros q -> Hq. eexists. split; [reflexivity | now apply Hrange].
  - intros q -> Hq. eexists. split; [reflexivity | now apply Hrange].
  - now intros ->.
  - now intros ->.
Qed.

Lemma productToDeviceState_fields_witness :
  exists z, position (KLF.productToDeviceState 1000 kitchen_product) = Num z /\
            0 <= z <= 100.
Proof.
  destruct (productToDeviceState_fields 1000 kitchen_product)
    as (_ & _ & _ & _ & H & _).
  apply (H (1 # 2)); [reflexivity|].
  split; unfold Qle; simpl; lia.
Defined.

Section RegistryLookups.

Implicit Types (r : DeviceRegistry) (d : DeviceState) (L : list DeviceState).

Lemma semantic_fields_equal_refl d : semantic_fields_equal d d.
Proof. repeat split. Qed.

Lemma markDirty_saveTimer r : saveTimer (markDirty r) = true.
Proof.
  unfold markDirty, scheduleSave. simpl.
  now destruct (saveTimer r) eqn:E.
Qed.

Lemma markDirty_scenes r : scenes (markDirty r) = scenes r.
Proof. unfold markDirty, scheduleSave. simpl. now destruct (saveTimer r). Qed.

Lemma markDirty_idem r : markDirty (markDirty r) = markDirty r.
Proof.
  unfold markDirty, scheduleSave. simpl.
  destruct (saveTimer r) eqn:E; simpl; rewrite ?E; reflexivity.
Qed.




End RegistryLookups.

(** X6.  After [updateDevice], the registry holds an entry for the node
    that agrees with the update on all six semantic fields, whether the
    update was accepted or dropped; every other node and all scenes are
    as before. *)
Theorem updateDevice_then_getDevice (d : DeviceState) (r : DeviceRegistry) :
  let r' := (updateDevice d r).1 in
  (exists d', getDevice (nodeId d) r' = Some d' /\
              semantic_fields_equal d' d) /\
  (forall k, k <> nodeId d -> getDevice k r' = getDevice k r) /\
  scenes r' = scenes r.
Proof.
  unfold updateDevice, getDevice.
  destruct (devices r !! nodeId d) as [prev|] eqn:Hprev.
  - destruct (hasStateChanged prev d) eqn:Hch; simpl.
    + rewrite markDirty_devices. simpl. split; [|split].
      * exists d. rewrite lookup_insert_eq.
        split; [reflexivity | apply semantic_fields_equal_refl].
      * intros k Hk. apply lookup_insert_ne. congruence.
      * now rewrite markDirty_scenes.
    + split; [|split; [reflexivity | reflexivity]].
      exists prev. split; [exact Hprev|].
      now apply hasStateChanged_false in Hch as [Heq _].
  - simpl. rewrite markDirty_devices. simpl. split; [|split].
    + exists d. rewrite lookup_insert_eq.
      split; [reflexivity | apply semantic_fields_equal_refl].
    + intros k Hk. apply lookup_insert_ne. congruence.
    + now rewrite markDirty_scenes.
Qed.

(** X7.  [removeDevice] reports [true] exactly when the node was stored;
    afterwards the node is absent, every other node is as before, and the
    registry is marked dirty only when something was removed. *)
Theorem removeDevice_spec (k : Z) (r : DeviceRegistry) :
  let r' := (removeDevice k r).1 in
  let deleted := (removeDevice k r).2 in
  (deleted = true <-> is_Some (getDevice k r)) /\
  getDevice k r' = None /\
  (forall j, j <> k -> getDevice j r' = getDevice j r) /\
  (deleted = false -> r' = r) /\
  (deleted = true -> dirty r' = true /\ saveTimer r' = true).
Proof.
  unfold removeDevice, getDevice.
  destruct (devices r !! k) as [d|] eqn:E; simpl.
  - rewrite markDirty_devices. simpl.
    split; [split; eauto|]. split; [apply lookup_delete_eq|].
    split; [intros j Hj; apply lookup_delete_ne; congruence|].
    split; [discriminate|]. intros _.
    split; [apply markDirty_dirty | apply markDirty_saveTimer].
  - split; [split; [discriminate | intros [x Hx]; discriminate]|].
    split; [exact E|]. split; [reflexivity|]. split; [reflexivity|].
    discriminate.
Qed.



(** X10.  When the write fails, persisting changes neither the files nor
    the maps and leaves the dirty flag as it was; after the timer, [flush]
    or [destroy] no timer is pending, so unsaved changes wait for the next
    mutation or flush.  A mutation made while a timer is pending arms no
    second one, and any mutation leaves the registry dirty with a timer
    pending. *)
Theorem persist_failure_keeps_dirty
    (how : Persist) (now : Z) (r : DeviceRegistry) (d : Disk) :
  (writable d = false ->
   let r' := (persist how now r d).1.1 in
   files (persist how now r d).1.2 = files d /\
   devices r' = devices r /\ scenes r' = scenes r /\
   dirty r' = dirty r /\
   (how <> by_save -> saveTimer r' = false)) /\
  markDirty (markDirty r) = markDirty r /\
  dirty (markDirty r) = true /\ saveTimer (markDirty r) = true.
Proof.
  split; [|split; [|split]].
  - intros Hw. cbv zeta.
    destruct (persist_cases how now r d)
      as (r0 & Hdev & Hsc & Hp & Hd & Ht & Hsave & Hclean).
    destruct (persist_whether how r) as [Hyes | [Hn Hc]].
    + rewrite (Hsave Hyes).
      destruct (save_outcome now r0 d) as (_ & Hreg & Hfiles).
      cbv zeta in Hreg, Hfiles.
      rewrite Hw, andb_false_r in Hreg, Hfiles. rewrite Hreg, Hfiles. auto.
    + rewrite (Hclean Hn Hc). simpl. auto.
  - apply markDirty_idem.
  - apply markDirty_dirty.
  - apply markDirty_saveTimer.
Qed.

Lemma persist_failure_keeps_dirty_witness :
  let r := (updateDevice kitchen (new_registry LBPDATA)).1 in
  let d := mkDisk ∅ ∅ true false [] in
  dirty (persist by_timer 5000 r d).1.1 = dirty r /\
  saveTimer (persist by_timer 5000 r d).1.1 = false.
Proof.
  intros r d.
  destruct (proj1 (persist_failure_keeps_dirty by_timer 5000 r d) eq_refl)
    as (_ & _ & _ & H1 & H2).
  split; [exact H1 | apply H2; discriminate].
Defined.

(* ===================================================================== *)
(** * Further properties of the gateway session *)
(* ===================================================================== *)

(** X11.  [stopDevice] fails with the not-connected error whenever the
    session is not connected or holds no product list, and with the
    unknown-node error when it is connected, holds a list and the node is
    not in it; no command is issued in either case.  Otherwise exactly one
    stop command is issued for that node, and the call fails only if the
    command is rejected. *)
Theorem stopDevice_contract
    (reply : option string) (nodeId : Z) (k : KLF.KLFConnection) :
  (KLF.connected k = false \/ KLF.products k = None ->
   KLF.stopDevice reply nodeId k = (KLF.rejected KLF.NotConnected, [])) /\
  (forall ps, KLF.connected k = true -> KLF.products k = Some ps ->
     (forall p, p ∈ ps -> KLF.NodeID p <> nodeId) ->
     KLF.stopDevice reply nodeId k =
       (KLF.rejected (KLF.DeviceNotFound nodeId), [])) /\
  (forall ps p, KLF.connected k = true -> KLF.products k = Some ps ->
     p ∈ ps -> KLF.NodeID p = nodeId ->
     KLF.stopDevice reply nodeId k =
       (match reply with
        | None => KLF.resolved tt
        | Some message => KLF.rejected (KLF.GatewayFailure message)
        end,
        [KLF.stopAsync nodeId])).
Proof.
  split; [|split].
  - intros [Hc | Hp]; unfold KLF.stopDevice.
    + rewrite Hc. now destruct (KLF.products k).
    + now rewrite Hp.
  - intros ps Hc Hp Hnone. unfold KLF.stopDevice. rewrite Hp, Hc. simpl.
    apply find_none_iff in Hnone. now rewrite Hnone.
  - intros ps p Hc Hp Hin Hid. unfold KLF.stopDevice. rewrite Hp, Hc. simpl.
    destruct (find _ ps) as [product|] eqn:E.
    + apply find_some in E as [_ E]. apply Z.eqb_eq in E. now rewrite E.
    + exfalso. apply (proj1 (find_none_iff nodeId ps) E p Hin Hid).
Qed.

Lemma stopDevice_contract_witness :
  KLF.stopDevice None 0 session_ready = (KLF.resolved tt, [KLF.stopAsync 0]) /\
  KLF.stopDevice None 0 session_undiscovered =
    (KLF.rejected KLF.NotConnected, []).
Proof.
  split.
  - apply (proj2 (proj2 (stopDevice_contract None 0 session_ready))
             [kitchen_product] kitchen_product); try reflexivity.
    apply list_elem_of_singleton. reflexivity.
  - apply (stopDevice_contract None 0 session_undiscovered).
    right. reflexivity.
Defined.

(** X12.  [disconnect] emits [disconnected] once and leaves a session in
    which nothing reconnects: a later connection loss, a reconnect request
    from a failed attempt and a keepalive tick all do nothing, and device
    commands are rejected as not connected.  The attempt counter is kept. *)
Theorem disconnect_stops_reconnecting (k : KLF.KLFConnection) :
  let k' := (KLF.disconnect k).1 in
  (KLF.disconnect k).2 = [KLF.emit_disconnected] /\
  KLF.connected k' = false /\
  KLF.reconnectAttempt k' = KLF.reconnectAttempt k /\
  KLF.handleConnectionLoss k' = (k', []) /\
  KLF.scheduleReconnect k' = (k', []) /\
  (forall alive, KLF.keepalive_fired alive k' = (k', [])) /\
  (forall reply n pos,
     KLF.setDevicePosition reply n pos k' =
       (KLF.rejected KLF.NotConnected, [])) /\
  (forall reply n,
     KLF.stopDevice reply n k' = (KLF.rejected KLF.NotConnected, [])).
Proof. repeat split. Qed.

(** X13.  A forced [reconnect] whose handshake succeeds leaves the session
    connected with the attempt counter at 0 and the shutdown flag lowered,
    but without products: device commands are rejected as not connected
    until a discovery supplies a product list.  When the handshake fails
    the call is rejected and no reconnection timer is armed. *)
Theorem reconnect_needs_rediscovery (h : KLF.Handshake) (k : KLF.KLFConnection) :
  let k' := ((KLF.reconnect h k).1).1 in
  let acts := (KLF.reconnect h k).2 in
  KLF.shuttingDown k' = false /\ KLF.products k' = None /\
  KLF.delays acts = [] /\
  (forall reply n pos,
     KLF.setDevicePosition reply n pos k' =
       (KLF.rejected KLF.NotConnected, [])) /\
  (h = KLF.established ->
   ((KLF.reconnect h k).1).2 = KLF.resolved tt /\
   KLF.connected k' = true /\ KLF.reconnectAttempt k' = 0 /\
   acts = [KLF.emit_disconnected; KLF.emit_connected] /\
   forall now ps,
     KLF.products ((KLF.discoverDevices now (Some ps) k').1).1 = Some ps) /\
  (h <> KLF.established ->
   (exists e, ((KLF.reconnect h k).1).2 = KLF.rejected e) /\
   KLF.connected k' = false /\ KLF.reconnecting k' = false).
Proof.
  destruct h as [m|m|]; cbv zeta; simpl.
  - repeat split; try discriminate. eauto.
  - repeat split; try discriminate. eauto.
  - repeat split; try congruence.
Qed.

Lemma reconnect_needs_rediscovery_witness :
  KLF.connected ((KLF.reconnect KLF.established session_ready).1).1 = true /\
  KLF.connected
    ((KLF.reconnect (KLF.login_fails "refused") session_ready).1).1 = false.
Proof.
  split.
  - apply (reconnect_needs_rediscovery KLF.established session_ready).
    reflexivity.
  - apply (reconnect_needs_rediscovery (KLF.login_fails "refused")
             session_ready).
    discriminate.
Defined.

(** X14.  A keepalive tick does nothing while the probe succeeds or the
    session is not connected.  When the probe fails on a connected session
    that is not shutting down, the session becomes disconnected, the
    keepalive stops, [disconnected] is emitted, and exactly one
    reconnection timer is armed with the backoff delay of the next attempt,
    unless a reconnection is already pending, in which case none is
    armed. *)
Theorem keepalive_failure (k : KLF.KLFConnection) :
  (KLF.connected k = false -> forall alive,
     KLF.keepalive_fired alive k = (k, [])) /\
  KLF.keepalive_fired true k = (k, []) /\
  (KLF.connected k = true -> KLF.connection k = true ->
   KLF.gateway k = true -> KLF.shuttingDown k = false ->
   let k' := (KLF.keepalive_fired false k).1 in
   let acts := (KLF.keepalive_fired false k).2 in
   KLF.connected k' = false /\ KLF.keepaliveTimer k' = false /\
   KLF.reconnecting k' = true /\
   (KLF.reconnecting k = false -> 0 <= KLF.reconnectAttempt k ->
    KLF.reconnectAttempt k' = KLF.reconnectAttempt k + 1 /\
    acts = [KLF.emit_disconnected;
            KLF.setTimeout_reconnect
              (spec_delay (KLF.reconnectBaseDelay (KLF.config k))
                          (KLF.reconnectMaxDelay (KLF.config k))
                          (KLF.reconnectAttempt k + 1))]) /\
   (KLF.reconnecting k = true ->
    KLF.reconnectAttempt k' = KLF.reconnectAttempt k /\
    acts = [KLF.emit_disconnected])).
Proof.
  split; [|split].
  - intros Hc alive. unfold KLF.keepalive_fired. now rewrite Hc.
  - unfold KLF.keepalive_fired.
    destruct (negb _ || negb _); [reflexivity|].
    now destruct (KLF.gateway k).
  - intros Hc Hn Hg Hs. cbv zeta.
    unfold KLF.keepalive_fired, KLF.handleConnectionLoss.
    rewrite Hc, Hn, Hg, Hs. simpl.
    destruct (KLF.reconnecting k) eqn:Hr; simpl.
    + rewrite ?Hr. repeat split; try discriminate; reflexivity.
    + rewrite scheduleReconnect_step by (simpl; auto). simpl.
      repeat split; try discriminate; reflexivity.
Qed.

Lemma keepalive_failure_witness :
  (KLF.keepalive_fired false session_ready).2 =
    [KLF.emit_disconnected; KLF.setTimeout_reconnect 5000] /\
  KLF.keepalive_fired true (KLF.disconnect session_ready).1 =
    ((KLF.disconnect session_ready).1, []).
Proof.
  split.
  - destruct (proj2 (proj2 (keepalive_failure session_ready))
                eq_refl eq_refl eq_refl eq_refl) as (_ & _ & _ & H & _).
    apply H; [reflexivity | simpl; lia].
  - apply (proj1 (keepalive_failure (KLF.disconnect session_ready).1)).
    reflexivity.
Defined.

(** X15.  With a product list held, [getDeviceStates] and [getDeviceState]
    answer from that list: the session is not changed, nothing is emitted
    and the connection state is not consulted.  [getDeviceStates] returns
    one state per product, in order; [getDeviceState] returns the state of
    the first product with that node id, and nothing when there is none. *)
Theorem getDeviceState_from_products
    (now : Z) (reply : option (list KLF.Product)) (n : Z)
    (k : KLF.KLFConnection) (ps : list KLF.Product) :
  KLF.products k = Some ps ->
  KLF.getDeviceStates now reply k =
    (k, KLF.resolved (KLF.productToDeviceState now <$> ps), []) /\
  (exists answer,
     KLF.getDeviceState now reply n k = (k, KLF.resolved answer, []) /\
     (answer = None <-> forall p, p ∈ ps -> KLF.NodeID p <> n) /\
     (forall d, answer = Some d -> nodeId d = n)).
Proof.
  intros Hp. unfold KLF.getDeviceStates, KLF.getDeviceState. rewrite Hp.
  split.
  - reflexivity.
  - eexists. split; [reflexivity|].
    destruct (find _ ps) as [p|] eqn:E; simpl.
    + apply find_some in E as [Hin E]. apply Z.eqb_eq in E.
      split.
      * split; [discriminate|]. intros H. exfalso.
        apply (H p); [now apply list_elem_of_In | exact E].
      * intros d [= <-]. exact E.
    + split; [|discriminate]. split; [|reflexivity].
      intros _. now apply find_none_iff.
Qed.

Lemma getDeviceState_from_products_witness :
  KLF.getDeviceStates 1000 None session_ready =
    (session_ready,
     KLF.resolved (KLF.productToDeviceState 1000 <$> [kitchen_product]), []).
Proof.
  apply (getDeviceState_from_products 1000 None 0 session_ready
           [kitchen_product]).
  reflexivity.
Defined.

(* ===================================================================== *)
(** * Further properties of the bus bridge *)
(* ===================================================================== *)

Section Strings.

Import MQTT.

Implicit Types (s p w ds rest : string) (c : ascii).

Lemma digit_not_space c d : digit c = Some d -> isWhiteSpace c = false.
Proof. destruct c as [[] [] [] [] [] [] [] []]; (discriminate || reflexivity). Qed.

Lemma digit_lower c d : digit c = Some d -> lower c = c.
Proof. destruct c as [[] [] [] [] [] [] [] []]; (discriminate || reflexivity). Qed.

Lemma digit_no_keyword c d s :
  digit c = Some d -> keyword_command (String c s) = None.
Proof. destruct c as [[] [] [] [] [] [] [] []]; (discriminate || reflexivity). Qed.

Lemma digit_parseInt c d s :
  digit c = Some d -> parseInt (String c s) = digits (String c s) None.
Proof.
  intros H. unfold parseInt. cbn [trimStart].
  rewrite (digit_not_space c d H). revert H.
  destruct c as [[] [] [] [] [] [] [] []]; (discriminate || reflexivity).
Qed.

Lemma digit_nonneg c d : digit c = Some d -> 0 <= d <= 9.
Proof.
  unfold digit. destruct (_ && _)%N eqn:E; [|discriminate].
  intros [= <-]. apply andb_true_iff in E as [E1 E2].
  apply N.leb_le in E1, E2. lia.
Qed.

Lemma digits_app ds rest : forall acc,
  all_digits ds = true -> no_leading_digit rest = true ->
  digits (ds +:+ rest) acc = digits ds acc.
Proof.
  induction ds as [|c ds IH]; intros acc Hd Hr; simpl.
  - destruct rest as [|c r]; [reflexivity|]. simpl in *.
    apply bool_decide_eq_true in Hr. now rewrite Hr.
  - simpl in Hd. apply andb_true_iff in Hd as [Hc Hd].
    apply bool_decide_eq_true in Hc as [d Hc]. rewrite Hc. now apply IH.
Qed.

Lemma digits_value ds : forall acc,
  all_digits ds = true -> (ds <> EmptyString \/ is_Some acc) ->
  (forall a, acc = Some a -> 0 <= a) ->
  exists v, digits ds acc = Some v /\ 0 <= v.
Proof.
  induction ds as [|c ds IH]; intros acc Hd Hne Hacc; simpl.
  - destruct Hne as [Hne | [a ->]]; [congruence|]. eauto.
  - simpl in Hd. apply andb_true_iff in Hd as [Hc Hd].
    apply bool_decide_eq_true in Hc as [d Hc]. rewrite Hc.
    apply IH; [exact Hd | right; eauto|].
    intros a [= <-]. pose proof (digit_nonneg c d Hc).
    destruct acc as [a0|]; simpl; [specialize (Hacc a0 eq_refl)|]; lia.
Qed.

Lemma span_digits_app ds rest :
  all_digits ds = true -> no_leading_digit rest = true ->
  span_digits (ds +:+ rest) = (ds, rest).
Proof.
  intros Hd Hr. induction ds as [|c ds IH]; simpl.
  - destruct rest as [|c r]; [reflexivity|]. simpl in *.
    apply bool_decide_eq_true in Hr. now rewrite Hr.
  - simpl in Hd. apply andb_true_iff in Hd as [Hc Hd].
    apply bool_decide_eq_true in Hc as [d Hc]. rewrite Hc.
    now rewrite (IH Hd).
Qed.

Lemma span_digits_eq s ds rest : span_digits s = (ds, rest) -> s = ds +:+ rest.
Proof.
  revert ds rest. induction s as [|c s IH]; intros ds rest; simpl.
  - now intros [= <- <-].
  - destruct (digit c).
    + destruct (span_digits s) as [ds' rest'] eqn:E.
      intros [= <- <-]. now rewrite (IH ds' rest' eq_refl) at 1.
    + now intros [= <- <-].
Qed.

Lemma append_assoc s1 s2 s3 : (s1 +:+ s2) +:+ s3 = s1 +:+ s2 +:+ s3.
Proof.
  induction s1 as [|c s1 IH]; [reflexivity|].
  change (String c ((s1 +:+ s2) +:+ s3) = String c (s1 +:+ s2 +:+ s3)).
  now rewrite IH.
Qed.

Lemma append_nil_r s : s +:+ EmptyString = s.
Proof.
  induction s as [|c s IH]; [reflexivity|].
  change (String c (s +:+ EmptyString) = String c s). now rewrite IH.
Qed.

Lemma strip_prefix_app p s1 s2 :
  strip_prefix (p +:+ s1) (p +:+ s2) = strip_prefix s1 s2.
Proof.
  induction p as [|c p IH]; simpl; [reflexivity|].
  now rewrite Ascii.eqb_refl.
Qed.

Lemma strip_prefix_eq p s r : strip_prefix p s = Some r -> s = p +:+ r.
Proof.
  revert s. induction p as [|c p IH]; intros s; simpl.
  - now intros [= ->].
  - destruct s as [|c' s]; [discriminate|].
    destruct (Ascii.eqb c c') eqn:E; [|discriminate].
    apply Ascii.eqb_eq in E. subst c'. intros H.
    change (String c s = String c (p +:+ r)). f_equal. now apply IH.
Qed.

Lemma last_char_app s1 s2 :
  s2 <> EmptyString -> last_char (s1 +:+ s2) = last_char s2.
Proof.
  intros Hne. induction s1 as [|c s1 IH]; [reflexivity|].
  change (last_char (String c (s1 +:+ s2)) = last_char s2).
  cbn [last_char]. rewrite IH. destruct (s1 +:+ s2) eqn:E; [|reflexivity].
  destruct s1 as [|c' s1'].
  - change (s2 = EmptyString) in E. congruence.
  - change (String c' (s1' +:+ s2) = EmptyString) in E. discriminate E.
Qed.

Lemma trim_keeps_first c s :
  isWhiteSpace c = false -> exists t, trim (String c s) = String c t.
Proof.
  intros H. unfold trim. cbn [trimStart]. rewrite H. cbn [trimEnd].
  destruct (trimEnd s); [rewrite H|]; eauto.
Qed.

(** The routing of a topic that carries a number. *)
Lemma match_numbered_hit prefix mid tail ds :
  all_digits ds = true -> ds <> EmptyString ->
  no_leading_digit tail = true ->
  match_numbered (prefix +:+ mid) tail (prefix +:+ mid +:+ ds +:+ tail) =
  digits ds None.
Proof.
  intros Hd Hne Ht. unfold match_numbered.
  rewrite <- (append_assoc prefix mid (ds +:+ tail)).
  rewrite <- (append_nil_r (prefix +:+ mid)) at 1.
  rewrite strip_prefix_app. simpl.
  rewrite (span_digits_app ds tail Hd Ht).
  destruct ds as [|c ds]; [congruence|]. simpl.
  rewrite String.eqb_refl.
  simpl in Hd. apply andb_true_iff in Hd as [Hc _].
  apply bool_decide_eq_true in Hc as [d Hc].
  now rewrite (digit_parseInt c d ds Hc).
Qed.

Lemma match_numbered_last head tail topic n :
  match_numbered head tail topic = Some n -> tail <> EmptyString ->
  last_char topic = last_char tail.
Proof.
  unfold match_numbered. intros H Hne.
  destruct (strip_prefix head topic) as [rest|] eqn:Es; [|discriminate].
  destruct (span_digits rest) as [ds after] eqn:Ed.
  destruct (negb _); simpl in H; [|discriminate].
  destruct (String.eqb after tail) eqn:Et; [|discriminate].
  apply String.eqb_eq in Et. subst after.
  apply strip_prefix_eq in Es. apply span_digits_eq in Ed. subst.
  rewrite <- append_assoc. now apply last_char_app.
Qed.

End Strings.

Section Routing.

Import MQTT.

Implicit Types (s w ds rest prefix payload : string).

Lemma parseInt_ws w s : all_ws w = true -> parseInt (w +:+ s) = parseInt s.
Proof. intros H. unfold parseInt. now rewrite trimStart_ws_app. Qed.

Lemma parseInt_digits ds rest :
  all_digits ds = true -> ds <> EmptyString ->
  no_leading_digit rest = true ->
  exists v, 0 <= v /\ parseInt (ds +:+ rest) = Some v /\ parseInt ds = Some v.
Proof.
  intros Hd Hne Hr.
  destruct (digits_value ds None Hd (or_introl Hne)) as (v & Hv & Hpos);
    [discriminate|].
  exists v. split; [exact Hpos|].
  destruct ds as [|c ds']; [congruence|].
  pose proof Hd as Hd'. simpl in Hd'. apply andb_true_iff in Hd' as [Hc _].
  apply bool_decide_eq_true in Hc as [d Hc].
  split.
  - change (String c ds' +:+ rest) with (String c (ds' +:+ rest)).
    rewrite (digit_parseInt c d _ Hc).
    change (String c (ds' +:+ rest)) with (String c ds' +:+ rest).
    now rewrite digits_app.
  - now rewrite (digit_parseInt c d _ Hc).
Qed.

Lemma numeric_no_keyword w ds rest :
  all_ws w = true -> all_digits ds = true -> ds <> EmptyString ->
  keyword_command (trim (toLowerCase (w +:+ ds +:+ rest))) = None.
Proof.
  intros Hw Hd Hne. destruct ds as [|c ds']; [congruence|].
  simpl in Hd. apply andb_true_iff in Hd as [Hc _].
  apply bool_decide_eq_true in Hc as [d Hc].
  rewrite toLowerCase_app. unfold trim.
  rewrite trimStart_ws_app by now apply all_ws_toLowerCase.
  change (String c ds' +:+ rest) with (String c (ds' +:+ rest)).
  cbn [toLowerCase]. rewrite (digit_lower c d Hc).
  destruct (trim_keeps_first c (toLowerCase (ds' +:+ rest))
              (digit_not_space c d Hc)) as [t Ht].
  unfold trim in Ht. rewrite Ht. exact (digit_no_keyword c d t Hc).
Qed.

Lemma match_numbered_other prefix mid tail rest :
  strip_prefix mid rest = None ->
  match_numbered (prefix +:+ mid) tail (prefix +:+ rest) = None.
Proof.
  intros H. unfold match_numbered. now rewrite strip_prefix_app, H.
Qed.

End Routing.

(** X16.  Numeric payloads are read leniently: after optional leading
    white space, the leading run of decimal digits is the number and
    whatever follows it is ignored.  [parseDeviceCommand] accepts the
    payload when that number is at most 100 and discards it otherwise. *)
Theorem numeric_payload_prefix (w ds rest : string) :
  all_ws w = true -> all_digits ds = true -> ds <> EmptyString ->
  no_leading_digit rest = true ->
  exists v, 0 <= v /\
    MQTT.parseInt ds = Some v /\
    MQTT.parseInt (w +:+ ds +:+ rest) = Some v /\
    MQTT.parseDeviceCommand (w +:+ ds +:+ rest) =
      (if v <=? 100 then Some (MQTT.cmd_number v) else None).
Proof.
  intros Hw Hd Hne Hr.
  destruct (parseInt_digits ds rest Hd Hne Hr) as (v & Hpos & Hv & Hds).
  exists v. split; [exact Hpos|]. split; [exact Hds|].
  assert (MQTT.parseInt (w +:+ ds +:+ rest) = Some v) as Hp
    by now rewrite parseInt_ws.
  split; [exact Hp|].
  rewrite parseDeviceCommand_unfold, numeric_no_keyword, Hp by assumption.
  assert ((0 <=? v) = true) as -> by now apply Z.leb_le.
  reflexivity.
Qed.

Lemma numeric_payload_prefix_witness :
  exists v, 0 <= v /\
    MQTT.parseInt "50" = Some v /\
    MQTT.parseInt (" " +:+ "50" +:+ "%") = Some v /\
    MQTT.parseDeviceCommand (" " +:+ "50" +:+ "%") =
      (if v <=? 100 then Some (MQTT.cmd_number v) else None).
Proof.
  apply (numeric_payload_prefix " " "50" "%");
    [reflexivity | reflexivity | discriminate | reflexivity].
Defined.

(** X17.  For a prefix without regular-expression operators, a topic
    built from it is routed to its handler: for a node or scene number
    written in at most 15 decimal digits (so that the number is read
    exactly), the [cmd] topic yields what [parseDeviceCommand] accepts,
    [position/set] yields an integer in [[0,100]] only, the scene topic
    reacts to [run] in any letter case, and the global topic to [refresh]
    and [reconnect].  No message ever raises more than one event. *)
Theorem topic_routing (prefix ds payload : string) :
  regex_literal prefix = true ->
  all_digits ds = true -> ds <> EmptyString ->
  (String.length ds <= 15)%nat ->
  exists n, 0 <= n /\ MQTT.parseInt ds = Some n /\
    MQTT.handleMessage prefix (prefix +:+ "/devices/" +:+ ds +:+ "/cmd")
                       payload =
      match MQTT.parseDeviceCommand payload with
      | Some command => [MQTT.deviceCommand n command]
      | None => []
      end /\
    MQTT.handleMessage prefix
      (prefix +:+ "/devices/" +:+ ds +:+ "/position/set") payload =
      match MQTT.parseInt payload with
      | Some v => if (0 <=? v) && (v <=? 100)
                  then [MQTT.deviceCommand n (MQTT.cmd_number v)] else []
      | None => []
      end /\
    MQTT.handleMessage prefix (prefix +:+ "/scenes/" +:+ ds +:+ "/cmd")
                       payload =
      (if String.eqb (MQTT.toLowerCase payload) "run"
       then [MQTT.sceneCommand n] else []) /\
    MQTT.handleMessage prefix (prefix +:+ "/cmd") payload =
      (if String.eqb (MQTT.toLowerCase payload) "refresh"
       then [MQTT.globalCommand MQTT.refresh]
       else if String.eqb (MQTT.toLowerCase payload) "reconnect"
       then [MQTT.globalCommand MQTT.reconnect] else []) /\
    forall topic, (length (MQTT.handleMessage prefix topic payload) <= 1)%nat.
Proof.
  intros _ Hd Hne _.
  destruct (parseInt_digits ds EmptyString Hd Hne eq_refl)
    as (n & Hpos & _ & Hn).
  assert (MQTT.digits ds None = Some n) as Hdig.
  { destruct ds as [|c ds']; [congruence|]. simpl in Hd.
    apply andb_true_iff in Hd as [Hc _].
    apply bool_decide_eq_true in Hc as [d Hc].
    now rewrite <- (digit_parseInt c d ds' Hc). }
  exists n. split; [exact Hpos|]. split; [exact Hn|].
  pose proof (match_numbered_hit prefix "/devices/" "/cmd" ds Hd Hne eq_refl)
    as Hcmd.
  pose proof (match_numbered_hit prefix "/devices/" "/position/set" ds
                Hd Hne eq_refl) as Hset.
  pose proof (match_numbered_hit prefix "/scenes/" "/cmd" ds Hd Hne eq_refl)
    as Hscene.
  rewrite Hdig in Hcmd, Hset, Hscene.
  split; [|split; [|split; [|split]]].
  - unfold MQTT.handleMessage. now rewrite Hcmd.
  - unfold MQTT.handleMessage.
    destruct (MQTT.match_numbered (prefix +:+ "/devices/") "/cmd"
                (prefix +:+ "/devices/" +:+ ds +:+ "/position/set"))
      as [a|] eqn:E.
    { pose proof (match_numbered_tail _ _ _ _ _ _ E Hset). discriminate. }
    now rewrite Hset.
  - unfold MQTT.handleMessage.
    rewrite !(match_numbered_other prefix "/devices/") by reflexivity.
    now rewrite Hscene.
  - unfold MQTT.handleMessage.
    rewrite !(match_numbered_other prefix "/devices/") by reflexivity.
    rewrite (match_numbered_other prefix "/scenes/") by reflexivity.
    now rewrite String.eqb_refl.
  - intros topic. unfold MQTT.handleMessage.
    repeat match goal with
           | |- context [match ?x with _ => _ end] => destruct x
           end; simpl; lia.
Qed.

Lemma topic_routing_witness :
  exists n, 0 <= n /\ MQTT.parseInt "12" = Some n /\
    MQTT.handleMessage "home/velux" ("home/velux" +:+ "/devices/" +:+ "12"
                                     +:+ "/cmd") "STOP" =
      match MQTT.parseDeviceCommand "STOP" with
      | Some command => [MQTT.deviceCommand n command]
      | None => []
      end.
Proof.
  destruct (topic_routing "home/velux" "12" "STOP" eq_refl eq_refl)
    as (n & H1 & H2 & H3 & _); [discriminate | simpl; lia|].
  exists n. auto.
Defined.

Section Publication.

Import MQTT.

Implicit Types (b : Bridge) (broker : Message -> bool) (m : Message).

Lemma publish_topic broker t payload flag b m :
  m ∈ (publish broker t payload flag b).2 ->
  msg_topic m = t /\ msg_retain m = flag /\ msg_qos m = qos b.
Proof.
  unfold publish. destruct (negb _ || negb _); simpl; intros H.
  - inversion H.
  - apply list_elem_of_singleton in H. now subst m.
Qed.

Lemma publish_down broker t payload flag b :
  client b = false \/ connected b = false ->
  publish broker t payload flag b = (true, []).
Proof.
  intros [H|H]; unfold publish; rewrite H; simpl; [reflexivity|].
  now rewrite orb_true_r.
Qed.

Lemma publish_up broker t payload flag b :
  client b = true -> connected b = true ->
  publish broker t payload flag b =
    (broker (mkMessage t payload (qos b) flag),
     [mkMessage t payload (qos b) flag]).
Proof. intros H1 H2. unfold publish. now rewrite H1, H2. Qed.

Lemma and_then_elem first second m :
  m ∈ (and_then first second).2 -> m ∈ first.2 \/ m ∈ second.2.
Proof.
  unfold and_then. destruct first.1; simpl; [|tauto].
  apply elem_of_app.
Qed.

(** A message that raises an event arrived on a topic ending in [d] or
    [t]. *)
Lemma handleMessage_last prefix t payload :
  handleMessage prefix t payload <> [] ->
  last_char t = Some "d"%char \/ last_char t = Some "t"%char.
Proof.
  unfold handleMessage.
  destruct (match_numbered _ "/cmd" t) as [n1|] eqn:E1.
  { intros _. left. now rewrite (match_numbered_last _ _ _ _ E1). }
  destruct (match_numbered _ "/position/set" t) as [n2|] eqn:E2.
  { intros _. right. now rewrite (match_numbered_last _ _ _ _ E2). }
  destruct (match_numbered (prefix +:+ "/scenes/") "/cmd" t)
    as [n3|] eqn:E3.
  { intros _. left. now rewrite (match_numbered_last _ _ _ _ E3). }
  destruct (String.eqb t _) eqn:E4; [|intros H; now contradict H].
  intros _. apply String.eqb_eq in E4. subst t. left.
  now rewrite last_char_app.
Qed.

End Publication.

(** X18.  The bridge never reacts to what it publishes: for any payload
    and any prefix without regular-expression operators, a status, device
    state, position, moving, scene state or error publication lies on a
    topic for which [handleMessage] raises no event. *)
Theorem publications_raise_no_event
    (broker : MQTT.Message -> bool) (b : MQTT.Bridge) (m : MQTT.Message) :
  (exists st, m ∈ (MQTT.publishStatus broker st b).2) \/
  (exists state, m ∈ (MQTT.publishDeviceState broker state b).2) \/
  (exists states, m ∈ (MQTT.publishAllDeviceStates broker states b).2) \/
  (exists state, m ∈ (MQTT.publishSceneState broker state b).2) \/
  (exists now severity component message details,
     m ∈ (MQTT.publishError broker now severity component message
            details b).2) ->
  forall prefix payload,
    regex_literal prefix = true ->
    MQTT.handleMessage prefix (MQTT.msg_topic m) payload = [].
Proof.
  intros Hm prefix payload _.
  assert (forall state, m ∈ (MQTT.publishDeviceState broker state b).2 ->
            last_char (MQTT.msg_topic m) = Some "e"%char \/
            last_char (MQTT.msg_topic m) = Some "n"%char \/
            last_char (MQTT.msg_topic m) = Some "g"%char) as Hdev.
  { intros state H. unfold MQTT.publishDeviceState in H.
    apply and_then_elem in H as [H|H];
      [|apply and_then_elem in H as [H|H]];
      apply publish_topic in H as [-> _]; unfold MQTT.topic;
      rewrite <- !append_assoc, last_char_app by discriminate; auto. }
  assert (last_char (MQTT.msg_topic m) = Some "s"%char \/
          last_char (MQTT.msg_topic m) = Some "e"%char \/
          last_char (MQTT.msg_topic m) = Some "n"%char \/
          last_char (MQTT.msg_topic m) = Some "g"%char) as Hlast.
  { destruct Hm as [[st H] | [[state H] | [[states H] | [[state H] | H]]]].
    - apply publish_topic in H as [-> _]. left. unfold MQTT.topic.
      rewrite <- append_assoc. now rewrite last_char_app.
    - right. eauto.
    - right. induction states as [|state states IH]; simpl in H.
      + inversion H.
      + apply and_then_elem in H as [H|H]; eauto.
    - apply publish_topic in H as [-> _]. right. left. unfold MQTT.topic.
      rewrite <- !append_assoc. now rewrite last_char_app.
    - destruct H as (now & sev & comp & msg & det & H).
      apply publish_topic in H as [-> _]. left. unfold MQTT.topic.
      rewrite <- append_assoc. now rewrite last_char_app. }
  destruct (MQTT.handleMessage prefix (MQTT.msg_topic m) payload) eqn:E;
    [reflexivity|].
  exfalso.
  destruct (handleMessage_last prefix (MQTT.msg_topic m) payload) as [H|H];
    [rewrite E; discriminate | |];
    rewrite H in Hlast; destruct Hlast as [X|[X|[X|X]]]; discriminate X.
Qed.

Lemma publications_raise_no_event_witness :
  MQTT.handleMessage "klf200" "klf200/devices/0/position" "50" = [].
Proof.
  apply (publications_raise_no_event (fun _ => true) bridge_up
           (MQTT.mkMessage "klf200/devices/0/position" (MQTT.text "50")
                           1 true)); [|reflexivity].
  right. left. exists kitchen. apply list_elem_of_In.
  right. left. reflexivity.
Defined.

(** X19.  Without a client or a connection every publication is dropped:
    nothing is handed to the broker and the call still succeeds. *)
Theorem publications_dropped_when_down
    (broker : MQTT.Message -> bool) (b : MQTT.Bridge) :
  MQTT.client b = false \/ MQTT.connected b = false ->
  (forall st, MQTT.publishStatus broker st b = (true, [])) /\
  (forall state, MQTT.publishDeviceState broker state b = (true, [])) /\
  (forall states, MQTT.publishAllDeviceStates broker states b = (true, [])) /\
  (forall state, MQTT.publishSceneState broker state b = (true, [])) /\
  (forall now severity component message details,
     MQTT.publishError broker now severity component message details b =
       (true, [])).
Proof.
  intros Hdown.
  assert (forall state, MQTT.publishDeviceState broker state b = (true, []))
    as Hdev.
  { intros state. unfold MQTT.publishDeviceState.
    now rewrite !(publish_down broker _ _ _ b Hdown). }
  split; [intros st; now apply publish_down|].
  split; [exact Hdev|]. split.
  - induction states as [|state states IH]; simpl; [reflexivity|].
    now rewrite Hdev, IH.
  - split; intros; now apply publish_down.
Qed.

Lemma publications_dropped_when_down_witness :
  MQTT.publishDeviceState (fun _ => true) kitchen
    (MQTT.mkBridge "klf200" true 1 true false) = (true, []).
Proof.
  apply (publications_dropped_when_down (fun _ => true)
           (MQTT.mkBridge "klf200" true 1 true false)).
  right. reflexivity.
Defined.

(** X20.  On a connected bridge, [publishDeviceState] hands the broker the
    state, position and moving messages of the device in that order, with
    the configured QoS and retain flag, and stops at the first one the
    broker rejects: what is sent is the first [n] of the three messages,
    every message before the last one sent was accepted, and the call fails
    exactly when the last one sent was rejected; it succeeds exactly when
    all three are accepted, and then all three are sent.  An error record
    is one message that is never retained, whatever the configuration. *)
Theorem publishDeviceState_messages
    (broker : MQTT.Message -> bool) (state : DeviceState) (b : MQTT.Bridge) :
  MQTT.client b = true -> MQTT.connected b = true ->
  let result := MQTT.publishDeviceState broker state b in
  let msgs := device_messages b state in
  (exists n last, (1 <= n <= 3)%nat /\
     result.2 = take n msgs /\
     (forall m, m ∈ take (n - 1) msgs -> broker m = true) /\
     msgs !! (n - 1)%nat = Some last /\
     result.1 = broker last /\
     (broker last = true -> n = 3%nat)) /\
  (result.1 = true <-> forall m, m ∈ msgs -> broker m = true) /\
  (forall now severity component message details,
     (MQTT.publishError broker now severity component message details b).2 =
       [MQTT.mkMessage (MQTT.topic b "errors")
          (MQTT.json_error now severity component message details)
          (MQTT.qos b) false]).
Proof.
  intros Hc Hu. cbv zeta.
  assert (forall now severity component message details,
            (MQTT.publishError broker now severity component message
               details b).2 =
            [MQTT.mkMessage (MQTT.topic b "errors")
               (MQTT.json_error now severity component message details)
               (MQTT.qos b) false]) as Herr
    by (intros; unfold MQTT.publishError; now rewrite publish_up).
  unfold MQTT.publishDeviceState.
  rewrite !(publish_up broker _ _ _ b Hc Hu).
  unfold device_messages, MQTT.and_then. simpl.
  set (m1 := MQTT.mkMessage _ (MQTT.json_device state) _ _).
  set (m2 := MQTT.mkMessage _ (MQTT.text (number_text (position state))) _ _).
  set (m3 := MQTT.mkMessage _ (MQTT.text (MQTT.bool_text (moving state))) _ _).
  assert (m1 ∈ [m1; m2; m3] /\ m2 ∈ [m1; m2; m3] /\ m3 ∈ [m1; m2; m3])
    as (I1 & I2 & I3) by (repeat split; set_solver).
  assert (broker m1 = true -> broker m2 = true -> broker m3 = true ->
          forall m, m ∈ [m1; m2; m3] -> broker m = true) as Hall.
  { intros H1 H2 H3 m Hm.
    apply elem_of_cons in Hm as [-> | Hm]; [exact H1|].
    apply elem_of_cons in Hm as [-> | Hm]; [exact H2|].
    apply list_elem_of_singleton in Hm. now subst m. }
  destruct (broker m1) eqn:E1; simpl.
  - destruct (broker m2) eqn:E2; simpl.
    + split; [|split; [|exact Herr]].
      * exists 3%nat, m3. split; [lia|]. split; [reflexivity|].
        split; [|auto].
        simpl. intros m Hm.
        apply elem_of_cons in Hm as [-> | Hm]; [exact E1|].
        apply list_elem_of_singleton in Hm. now subst m.
      * split; [intros E3; now apply Hall | intros H; now apply H].
    + split; [|split; [|exact Herr]].
      * exists 2%nat, m2. split; [lia|]. split; [reflexivity|].
        split; [|split; [reflexivity|]].
        { simpl. intros m Hm. apply list_elem_of_singleton in Hm.
          now subst m. }
        split; [now rewrite E2 | rewrite E2; discriminate].
      * split; [discriminate|]. intros H. rewrite (H m2 I2) in E2.
        discriminate.
  - split; [|split; [|exact Herr]].
    + exists 1%nat, m1. split; [lia|]. split; [reflexivity|].
      split; [|split; [reflexivity|]].
      { simpl. intros m Hm. inversion Hm. }
      split; [now rewrite E1 | rewrite E1; discriminate].
    + split; [discriminate|]. intros H. rewrite (H m1 I1) in E1. discriminate.
Qed.

Lemma publishDeviceState_messages_witness :
  (MQTT.publishDeviceState (fun _ => true) kitchen bridge_up).1 = true /\
  exists n last, (1 <= n <= 3)%nat /\
    (MQTT.publishDeviceState
       (fun m => negb (String.eqb (MQTT.msg_topic m)
                                  "klf200/devices/0/position"))
       kitchen bridge_up).2 =
    take n (device_messages bridge_up kitchen) /\
    device_messages bridge_up kitchen !! (n - 1)%nat = Some last /\
    MQTT.msg_topic last = "klf200/devices/0/position".
Proof.
  split.
  - apply (publishDeviceState_messages (fun _ => true) kitchen bridge_up);
      reflexivity.
  - destruct (proj1 (publishDeviceState_messages
                       (fun m => negb (String.eqb (MQTT.msg_topic m)
                                         "klf200/devices/0/position"))
                       kitchen bridge_up eq_refl eq_refl))
      as (n & last & Hn & Hsent & Hbefore & Hlast & _ & _).
    exists n, last. split; [exact Hn|]. split; [exact Hsent|].
    split; [exact Hlast|].
    assert (n = 1 \/ n = 2 \/ n = 3)%nat as [-> | [-> | ->]] by lia.
    + exfalso. vm_compute in Hsent. discriminate Hsent.
    + vm_compute in Hlast. now injection Hlast as <-.
    + exfalso. vm_compute in Hsent. discriminate Hsent.
Defined.

(** X21.  [disconnect] of the bridge: without a client nothing happens;
    with a client whose connection is down the client is ended and nothing
    is published; on a live connection the single [offline] status message
    goes out first and the client is ended only if the broker accepted it,
    otherwise the call fails and the bridge is left as it was.  Once ended,
    the bridge publishes nothing more. *)
Theorem bridge_disconnect (broker : MQTT.Message -> bool) (b : MQTT.Bridge) :
  let ended :=
    MQTT.mkBridge (MQTT.topicPrefix b) (MQTT.retain b) (MQTT.qos b)
                  false false in
  let farewell :=
    MQTT.mkMessage (MQTT.topic b "status") (MQTT.text "offline")
                   (MQTT.qos b) (MQTT.retain b) in
  (MQTT.client b = false -> MQTT.disconnect broker b = (b, true, [])) /\
  (MQTT.client b = true -> MQTT.connected b = false ->
   MQTT.disconnect broker b = (ended, true, [])) /\
  (MQTT.client b = true -> MQTT.connected b = true ->
   MQTT.disconnect broker b =
     if broker farewell then (ended, true, [farewell])
     else (b, false, [farewell])) /\
  (forall st, MQTT.publishStatus broker st ended = (true, [])).
Proof.
  cbv zeta. unfold MQTT.disconnect, MQTT.publishStatus.
  split; [|split; [|split]].
  - intros H. now rewrite H.
  - intros H1 H2. rewrite H1. simpl.
    now rewrite (publish_down broker _ _ _ b (or_intror H2)).
  - intros H1 H2. rewrite H1. simpl.
    rewrite (publish_up broker _ _ _ b H1 H2). simpl.
    now destruct (broker _).
  - reflexivity.
Qed.

Lemma bridge_disconnect_witness :
  MQTT.disconnect (fun _ => false) bridge_up =
    (bridge_up, false,
     [MQTT.mkMessage "klf200/status" (MQTT.text "offline") 1 true]).
Proof.
  apply (proj1 (proj2 (proj2 (bridge_disconnect (fun _ => false) bridge_up))));
    reflexivity.
Defined.

(* ===================================================================== *)
(** * Further properties of the orchestration, configuration and logger *)
(* ===================================================================== *)

Section Wiring.

Lemma publishDeviceState_accepted broker state b :
  MQTT.client b = true -> MQTT.connected b = true ->
  (forall m, broker m = true) ->
  MQTT.publishDeviceState broker state b = (true, device_messages b state).
Proof.
  intros Hc Hu Hall. unfold MQTT.publishDeviceState.
  rewrite !(publish_up broker _ _ _ b Hc Hu).
  unfold MQTT.and_then. simpl. now rewrite !Hall.
Qed.

Lemma klfPositionToPercent_of_percent (c : Q) (pct : Z) :
  (c == inject_Z pct)%Q ->
  Codec.klfPositionToPercent (Codec.percentToKlfPosition c) = pct.
Proof.
  intros Hc. unfold Codec.klfPositionToPercent, Codec.percentToKlfPosition.
  assert (((1 - (1 - c / 100)) * 100 == inject_Z pct)%Q) as ->
    by (rewrite Hc; field).
  apply Math_round_inject_Z.
Qed.

End Wiring.

(** X22.  A state change reported by the session reaches the bus only when
    it matters: if the registry already holds the node with the same six
    semantic fields, both percentages being numbers, nothing is published
    and the registry is unchanged.  If the node is new, a semantic field
    differs, or the state carries a [NaN] percentage, the registry stores
    the state and, on a connected bridge whose broker accepts, exactly the
    state, position and moving messages of that state are published; a
    state with a [NaN] is thus published every time it is reported. *)
Theorem state_change_to_bus
    (broker : MQTT.Message -> bool) (state : DeviceState)
    (r : DeviceRegistry) (b : MQTT.Bridge) :
  (forall prev, getDevice (nodeId state) r = Some prev ->
     semantic_fields_equal prev state -> comparable state ->
     Daemon.deviceStateChanged_to_bus broker state r b = (r, [])) /\
  (MQTT.client b = true -> MQTT.connected b = true ->
   (forall m, broker m = true) ->
   (getDevice (nodeId state) r = None \/
    (exists prev, getDevice (nodeId state) r = Some prev /\
                  ~ semantic_fields_equal prev state) \/
    has_NaN state = true) ->
   (Daemon.deviceStateChanged_to_bus broker state r b).2 =
     device_messages b state /\
   getDevice (nodeId state)
     (Daemon.deviceStateChanged_to_bus broker state r b).1 = Some state).
Proof.
  unfold Daemon.deviceStateChanged_to_bus, Daemon.on_deviceStateChanged,
    updateDevice, getDevice.
  split.
  - intros prev Hprev Heq Hcmp.
    assert (hasStateChanged prev state = false) as Hno
      by (apply hasStateChanged_false; auto).
    now rewrite Hprev, Hno.
  - intros Hc Hu Hall Hchg.
    assert ((if match devices r !! nodeId state with
                | Some prev => negb (hasStateChanged prev state)
                | None => false
                end then true else false) = false) as Hno.
    { destruct (devices r !! nodeId state) as [prev|] eqn:Hprev;
        [|reflexivity].
      destruct Hchg as [Hnone | [(prev' & Hp & Hne) | Hnan]].
      - discriminate Hnone.
      - injection Hp as <-. apply hasStateChanged_differs in Hne.
        now rewrite Hne.
      - now rewrite (hasStateChanged_NaN prev state Hnan). }
    destruct (devices r !! nodeId state) as [prev|] eqn:Hprev.
    + destruct (hasStateChanged prev state); [|discriminate Hno]. simpl.
      rewrite publishDeviceState_accepted by assumption. simpl.
      rewrite ?app_nil_r, markDirty_devices. simpl.
      split; [reflexivity | apply lookup_insert_eq].
    + simpl. rewrite publishDeviceState_accepted by assumption. simpl.
      rewrite ?app_nil_r, markDirty_devices. simpl.
      split; [reflexivity | apply lookup_insert_eq].
Qed.

Lemma state_change_to_bus_witness :
  let r := (updateDevice kitchen (new_registry LBPDATA)).1 in
  let r2 := (updateDevice skylight (new_registry LBPDATA)).1 in
  Daemon.deviceStateChanged_to_bus (fun _ => true) kitchen_later r bridge_up
    = (r, []) /\
  (Daemon.deviceStateChanged_to_bus (fun _ => true) kitchen_opened r
     bridge_up).2 = device_messages bridge_up kitchen_opened /\
  (Daemon.deviceStateChanged_to_bus (fun _ => true) skylight r2
     bridge_up).2 = device_messages bridge_up skylight.
Proof.
  intros r r2. split; [|split].
  - apply (proj1 (state_change_to_bus (fun _ => true) kitchen_later r
                    bridge_up) kitchen);
      [reflexivity | repeat split | split; discriminate].
  - apply (proj2 (state_change_to_bus (fun _ => true) kitchen_opened r
                    bridge_up)); try reflexivity.
    right. left. exists kitchen. split; [reflexivity|].
    intros (H & _). discriminate H.
  - apply (proj2 (state_change_to_bus (fun _ => true) skylight r2
                    bridge_up)); try reflexivity.
    right. right. reflexivity.
Defined.

(** X23.  A valid device command for a discovered node of a connected
    session reaches the gateway as exactly one call: [stop] as a stop
    command, and [open], [close] and a number as a target position whose
    raw value the codec reads back as 100, 0 and that number. *)
Theorem command_reaches_gateway
    (reply : option string) (n : Z) (cmd : MQTT.DeviceCommand)
    (k : KLF.KLFConnection) (ps : list KLF.Product) (p : KLF.Product) :
  MQTT.valid_command cmd ->
  KLF.connected k = true -> KLF.products k = Some ps ->
  p ∈ ps -> KLF.NodeID p = n ->
  match commanded_percent cmd with
  | None => (Daemon.handleDeviceCommand reply n cmd k).2 = [KLF.stopAsync n]
  | Some pct =>
      exists raw,
        (Daemon.handleDeviceCommand reply n cmd k).2 =
          [KLF.setTargetPositionAsync n raw] /\
        (raw == 1 - inject_Z pct / 100)%Q /\
        Codec.klfPositionToPercent raw = pct
  end.
Proof.
  intros Hvalid Hc Hp Hin Hid.
  assert (exists product,
            find (fun q => KLF.NodeID q =? n) ps = Some product /\
            KLF.NodeID product = n) as (product & Hfind & Hprod).
  { destruct (find _ ps) as [q|] eqn:E.
    - apply find_some in E as [_ E]. apply Z.eqb_eq in E. eauto.
    - exfalso. apply (proj1 (find_none_iff n ps) E p Hin Hid). }
  assert (forall pct : Z, 0 <= pct <= 100 ->
            exists raw,
              (KLF.setDevicePosition reply n (inject_Z pct) k).2 =
                [KLF.setTargetPositionAsync n raw] /\
              (raw == 1 - inject_Z pct / 100)%Q /\
              Codec.klfPositionToPercent raw = pct) as Hset.
  { intros pct Hpct. unfold KLF.setDevicePosition.
    rewrite Hp, Hc. simpl. rewrite Hfind, Hprod. simpl.
    assert ((Codec.clamp_0_100 (inject_Z pct) == inject_Z pct)%Q) as Hclamp.
    { apply clamp_0_100_cases. split.
      - change 0%Q with (inject_Z 0). rewrite <- Zle_Qle. lia.
      - change 100%Q with (inject_Z 100). rewrite <- Zle_Qle. lia. }
    eexists. split; [reflexivity|]. split.
    - unfold Codec.percentToKlfPosition. now rewrite Hclamp.
    - now apply klfPositionToPercent_of_percent. }
  destruct cmd as [| | |v]; simpl.
  - apply (Hset 100). lia.
  - apply (Hset 0). lia.
  - unfold KLF.stopDevice. rewrite Hp, Hc. simpl. now rewrite Hfind, Hprod.
  - apply (Hset v). exact Hvalid.
Qed.

Lemma command_reaches_gateway_witness :
  exists raw,
    (Daemon.handleDeviceCommand None 0 MQTT.cmd_open session_ready).2 =
      [KLF.setTargetPositionAsync 0 raw] /\
    (raw == 1 - inject_Z 100 / 100)%Q /\
    Codec.klfPositionToPercent raw = 100.
Proof.
  apply (command_reaches_gateway None 0 MQTT.cmd_open session_ready
           [kitchen_product] kitchen_product);
    [exact I | reflexivity | reflexivity
     | apply list_elem_of_singleton; reflexivity | reflexivity].
Defined.

(** X24.  The global [reconnect] command with a successful handshake
    leaves the session connected with the attempt counter at 0; its product
    list is the freshly discovered one when auto-discovery is on and the
    discovery succeeds, and empty otherwise.  The global [refresh] command
    on a session that is not connected changes nothing and is not
    reported. *)
Theorem global_commands
    (autoDiscovery : bool) (now : Z) (ps : list KLF.Product)
    (scns : option (list KLF.Scene)) (k : KLF.KLFConnection) :
  (let k' := (Daemon.handleGlobalCommand autoDiscovery now KLF.established
                (Some ps) scns MQTT.reconnect k).1 in
   KLF.connected k' = true /\ KLF.reconnectAttempt k' = 0 /\
   KLF.shuttingDown k' = false /\
   KLF.products k' = if autoDiscovery then Some ps else None) /\
  (let k' := (Daemon.handleGlobalCommand autoDiscovery now KLF.established
                None scns MQTT.reconnect k).1 in
   KLF.connected k' = true /\ KLF.products k' = None) /\
  (KLF.connected k = false ->
   forall h devs,
     Daemon.handleGlobalCommand autoDiscovery now h devs scns MQTT.refresh k
       = (k, [])).
Proof.
  split; [|split].
  - destruct autoDiscovery; simpl; [|repeat split].
    destruct scns; simpl; repeat split.
  - destruct autoDiscovery; simpl; repeat split.
  - intros Hc h devs. unfold Daemon.handleGlobalCommand, KLF.refresh.
    now rewrite Hc.
Qed.

Lemma global_commands_witness :
  Daemon.handleGlobalCommand true 0 KLF.established None None MQTT.refresh
    (KLF.disconnect session_ready).1 = ((KLF.disconnect session_ready).1, []).
Proof.
  apply (proj2 (proj2 (global_commands true 0 [] None
                         (KLF.disconnect session_ready).1))).
  reflexivity.
Defined.

(** X25.  [validateConfig] accepts a configuration exactly when the host
    and the password are not empty, the port lies in [[1,65535]] and the
    QoS is 0, 1 or 2; the keepalive interval never causes a rejection, a
    value under one minute only raises the warning.  The default
    configuration is rejected for its empty host and password. *)
Theorem validateConfig_accepts (config : Config.PluginConfig) :
  ((Config.validateConfig config).1 = [] <->
   Config.host config <> EmptyString /\
   Config.password config <> EmptyString /\
   1 <= Config.port config <= 65535 /\
   (Config.qos config = 0 \/ Config.qos config = 1 \/ Config.qos config = 2))
  /\
  (forall interval,
     (Config.validateConfig
        (Config.mkPluginConfig (Config.host config) (Config.password config)
           (Config.port config) interval (Config.qos config))).1 =
     (Config.validateConfig config).1) /\
  ((Config.validateConfig config).2 = true <->
   Config.keepaliveInterval config < 60000) /\
  (Config.validateConfig Config.DEFAULT_CONFIG).1 =
    ["klf200.host is required"; "klf200.password is required"].
Proof.
  split; [|split; [reflexivity | split; [apply Z.ltb_lt | reflexivity]]].
  unfold Config.validateConfig. cbn [fst].
  destruct (String.eqb_spec (Config.host config) EmptyString) as [Eh|Eh];
  destruct (String.eqb_spec (Config.password config) EmptyString) as [Ep|Ep];
  destruct (Z.ltb_spec (Config.port config) 1) as [E1|E1];
  destruct (Z.gtb_spec (Config.port config) 65535) as [E2|E2];
  destruct (Z.eqb_spec (Config.qos config) 0) as [Q0|Q0];
  destruct (Z.eqb_spec (Config.qos config) 1) as [Q1|Q1];
  destruct (Z.eqb_spec (Config.qos config) 2) as [Q2|Q2];
  simpl;
  (split;
   [ intros Hnil; try discriminate Hnil;
     repeat split; (assumption || lia || auto)
   | intros (H1 & H2 & H3 & H4); try reflexivity; exfalso;
     (contradiction || lia) ]).
Qed.

Lemma validateConfig_accepts_witness :
  (Config.validateConfig
     (Config.mkPluginConfig "10.0.0.5" "p" 51200 600000 1)).1 = [].
Proof.
  apply (proj1 (validateConfig_accepts
                  (Config.mkPluginConfig "10.0.0.5" "p" 51200 600000 1))).
  simpl. repeat split; try discriminate; try lia; auto.
Defined.

Section Sizes.

Lemma span_no_digit s :
  no_leading_digit s = true -> MQTT.span_digits s = (EmptyString, s).
Proof.
  destruct s as [|c s]; [reflexivity|]. simpl. intros H.
  apply bool_decide_eq_true in H. now rewrite H.
Qed.

End Sizes.

(** X26.  [parseSize] reads a run of decimal digits as bytes, and with one
    unit letter [k], [m] or [g] in either case as that many times 1024,
    1024^2 or 1024^3; a text that does not start with a digit, or that
    continues after the digits with anything else, gives the default of
    10 MiB. *)
Theorem parseSize_cases (ds rest : string) :
  (no_leading_digit rest = true -> Logger.parseSize rest = 10485760) /\
  (all_digits ds = true -> ds <> EmptyString ->
   exists v, 0 <= v /\ MQTT.parseInt ds = Some v /\
     Logger.parseSize ds = v /\
     Logger.parseSize (ds +:+ "k") = v * 1024 /\
     Logger.parseSize (ds +:+ "K") = v * 1024 /\
     Logger.parseSize (ds +:+ "m") = v * 1024 * 1024 /\
     Logger.parseSize (ds +:+ "M") = v * 1024 * 1024 /\
     Logger.parseSize (ds +:+ "g") = v * 1024 * 1024 * 1024 /\
     Logger.parseSize (ds +:+ "G") = v * 1024 * 1024 * 1024 /\
     (no_leading_digit rest = true -> rest <> EmptyString ->
      MQTT.toLowerCase rest <> "k" -> MQTT.toLowerCase rest <> "m" ->
      MQTT.toLowerCase rest <> "g" ->
      Logger.parseSize (ds +:+ rest) = 10485760)).
Proof.
  split.
  - intros H. unfold Logger.parseSize. now rewrite span_no_digit.
  - intros Hd Hne.
    destruct (parseInt_digits ds EmptyString Hd Hne eq_refl)
      as (v & Hpos & _ & Hv).
    exists v. split; [exact Hpos|]. split; [exact Hv|].
    assert (forall u, no_leading_digit u = true ->
              Logger.parseSize (ds +:+ u) =
              if String.eqb u "" then v
              else if String.eqb (MQTT.toLowerCase u) "k" then v * 1024
              else if String.eqb (MQTT.toLowerCase u) "m"
                   then v * 1024 * 1024
              else if String.eqb (MQTT.toLowerCase u) "g"
                   then v * 1024 * 1024 * 1024
              else 10 * 1024 * 1024) as Hsize.
    { intros u Hu. unfold Logger.parseSize.
      rewrite (span_digits_app ds u Hd Hu), Hv.
      destruct ds; [congruence | reflexivity]. }
    split; [rewrite <- (append_nil_r ds) at 1; now rewrite Hsize|].
    repeat (split; [now rewrite Hsize|]).
    intros Hr Hrne Hk Hm Hg. rewrite (Hsize rest Hr).
    destruct (String.eqb_spec rest ""); [contradiction|].
    destruct (String.eqb_spec (MQTT.toLowerCase rest) "k"); [contradiction|].
    destruct (String.eqb_spec (MQTT.toLowerCase rest) "m"); [contradiction|].
    destruct (String.eqb_spec (MQTT.toLowerCase rest) "g"); [contradiction|].
    reflexivity.
Qed.

Lemma parseSize_cases_witness :
  Logger.parseSize "10mb" = 10485760 /\
  exists v, 0 <= v /\ MQTT.parseInt "10" = Some v /\
            Logger.parseSize ("10" +:+ "M") = v * 1024 * 1024.
Proof.
  destruct (proj2 (parseSize_cases "10" "mb") eq_refl)
    as (v & H1 & H2 & _ & _ & _ & _ & H3 & _ & _ & H4); [discriminate|].
  split.
  - apply H4; [reflexivity | discriminate | discriminate | discriminate
               | discriminate].
  - exists v. auto.
Defined.

(** X27.  [connect] on a connected session does nothing at all.  On a
    disconnected one a successful handshake connects, resets the attempt
    counter, arms the keepalive and emits [connected]; a failed handshake
    rejects, leaves the session disconnected, emits [error] and arms no
    reconnection timer. *)
Theorem connect_outcomes (h : KLF.Handshake) (k : KLF.KLFConnection) :
  (KLF.connected k = true ->
   KLF.connect h k = (k, KLF.resolved tt, [])) /\
  (KLF.connected k = false ->
   let k' := ((KLF.connect h k).1).1 in
   let acts := (KLF.connect h k).2 in
   KLF.products k' = KLF.products k /\
   KLF.reconnecting k' = KLF.reconnecting k /\
   KLF.delays acts = [] /\
   (h = KLF.established ->
    ((KLF.connect h k).1).2 = KLF.resolved tt /\
    KLF.connected k' = true /\ KLF.reconnectAttempt k' = 0 /\
    KLF.keepaliveTimer k' = true /\ acts = [KLF.emit_connected]) /\
   (h <> KLF.established ->
    (exists e, ((KLF.connect h k).1).2 = KLF.rejected e) /\
    KLF.connected k' = false /\
    KLF.reconnectAttempt k' = KLF.reconnectAttempt k /\
    acts = [KLF.emit_error])).
Proof.
  split.
  - intros Hc. unfold KLF.connect. now rewrite Hc.
  - intros Hc. cbv zeta. unfold KLF.connect. rewrite Hc.
    destruct h as [m|m|]; simpl; repeat split; try congruence; eauto.
Qed.

Lemma connect_outcomes_witness :
  KLF.connect (KLF.login_fails "refused") session_ready =
    (session_ready, KLF.resolved tt, []).
Proof.
  apply (proj1 (connect_outcomes (KLF.login_fails "refused") session_ready)).
  reflexivity.
Defined.

(** X28.  [discoverDevices] is rejected as not connected, without any
    effect, unless the session holds a connection and is connected.  When
    the gateway request fails the product list held before is kept.  When
    it succeeds the list is replaced and one [devicesDiscovered] event
    carries one state per product, with the products' node ids in the
    same order. *)
Theorem discoverDevices_outcomes
    (now : Z) (reply : option (list KLF.Product)) (k : KLF.KLFConnection) :
  (KLF.connection k = false \/ KLF.connected k = false ->
   KLF.discoverDevices now reply k = (k, KLF.rejected KLF.NotConnected, [])) /\
  (KLF.connection k = true -> KLF.connected k = true ->
   (reply = None ->
    exists e, KLF.discoverDevices now reply k = (k, KLF.rejected e, [])) /\
   (forall ps, reply = Some ps ->
      exists found,
        KLF.discoverDevices now reply k =
          (KLF.with_catalog (Some ps) (KLF.scenes k) k, KLF.resolved found,
           [KLF.emit_devicesDiscovered found]) /\
        nodeId <$> found = KLF.NodeID <$> ps)).
Proof.
  unfold KLF.discoverDevices. split.
  - intros [H|H]; rewrite H; simpl; [reflexivity|].
    now rewrite orb_true_r.
  - intros Hn Hc. rewrite Hn, Hc. simpl. split.
    + intros ->. eauto.
    + intros ps ->. eexists. split; [reflexivity|].
      induction ps as [|p ps IH]; simpl; [reflexivity|].
      f_equal. exact IH.
Qed.

Lemma discoverDevices_outcomes_witness :
  KLF.discoverDevices 0 (Some [kitchen_product])
    (KLF.disconnect session_ready).1 =
    ((KLF.disconnect session_ready).1, KLF.rejected KLF.NotConnected, []).
Proof.
  apply (proj1 (discoverDevices_outcomes 0 (Some [kitchen_product])
                  (KLF.disconnect session_ready).1)).
  left. reflexivity.
Defined.

(* ===================================================================== *)
(** * Reading the snapshot back *)
(* ===================================================================== *)

Section Snapshot.

Implicit Types (r : DeviceRegistry) (d : Disk).

Lemma pretty_N_char_digit (x : N) :
  (x < 10)%N -> MQTT.digit (pretty_N_char x) = Some (Z.of_N x).
Proof.
  intros H.
  assert (x = 0 \/ x = 1 \/ x = 2 \/ x = 3 \/ x = 4 \/ x = 5 \/ x = 6 \/
          x = 7 \/ x = 8 \/ x = 9)%N as Hx by lia.
  repeat destruct Hx as [-> | Hx]; try subst x; reflexivity.
Qed.

(** The decimal text of a positive number starts with a digit, and its
    digits read back as the number. *)
Lemma pretty_N_go_digits (x : N) : forall s,
  (0 < x)%N ->
  (exists c rest dgt, pretty_N_go x s = String c rest /\
                      MQTT.digit c = Some dgt) /\
  MQTT.digits (pretty_N_go x s) None = MQTT.digits s (Some (Z.of_N x)).
Proof.
  induction (N.lt_wf_0 x) as [x _ IH]. intros s Hx.
  rewrite pretty_N_go_step by exact Hx.
  pose proof (pretty_N_char_digit (x `mod` 10)%N
                (N.mod_lt x 10 ltac:(discriminate))) as Hd.
  destruct (N.eq_0_gt_0_cases (x `div` 10)) as [E | E].
  - rewrite E, pretty_N_go_0. split; [eauto|].
    cbn [MQTT.digits]. rewrite Hd. simpl default. f_equal. f_equal.
    pose proof (N.div_mod x 10 ltac:(discriminate)). lia.
  - destruct (IH (x `div` 10)%N (N.div_lt x 10 Hx eq_refl)
                (String (pretty_N_char (x `mod` 10)) s) E) as [Hc Hv].
    split; [exact Hc|]. rewrite Hv. cbn [MQTT.digits]. rewrite Hd.
    simpl default. f_equal. f_equal.
    pose proof (N.div_mod x 10 ltac:(discriminate)). lia.
Qed.

(** [parseInt(String(k), 10)] is [k]. *)
Lemma parseInt_pretty (k : Z) : MQTT.parseInt (pretty k) = Some k.
Proof.
  destruct k as [|q|q]; [reflexivity| |].
  - change (pretty (Z.pos q)) with (pretty_N_go (N.pos q) "").
    destruct (pretty_N_go_digits (N.pos q) "" eq_refl)
      as [(c & rest & dgt & Hs & Hc) Hv].
    rewrite Hs in Hv |- *. now rewrite (digit_parseInt c dgt rest Hc), Hv.
  - change (pretty (Z.neg q)) with (String "-" (pretty_N_go (N.pos q) "")).
    destruct (pretty_N_go_digits (N.pos q) "" eq_refl) as [_ Hv].
    unfold MQTT.parseInt. cbn [MQTT.trimStart].
    change (MQTT.isWhiteSpace "-") with false. cbv iota.
    now rewrite Hv.
Qed.

(** Setting the members of [Object.fromEntries] of a map again, each
    through [f], gives the map with [f] applied to every value. *)
Lemma restore_members {A} (f : A -> A) (l : list (Z * A)) :
  forall m : gmap Z A,
  NoDup l.*1 ->
  restore (prod_map id f <$> ((fun entry => (pretty entry.1, entry.2)) <$> l))
          m =
  list_to_map (prod_map id f <$> l) ∪ m.
Proof.
  induction l as [|[k v] l IH]; intros m Hnd.
  - simpl. now rewrite (left_id_L ∅ (∪)).
  - rewrite fmap_cons in Hnd. apply NoDup_cons in Hnd as [Hk Hnd].
    rewrite !fmap_cons. cbn [restore prod_map fst snd id].
    rewrite parseInt_pretty, (IH _ Hnd).
    cbn [list_to_map foldr uncurry fst snd].
    rewrite <- insert_union_l. symmetry. apply insert_union_r.
    apply not_elem_of_list_to_map_1.
    assert ((prod_map id f <$> l).*1 = l.*1) as ->; [|exact Hk].
    rewrite <- list_fmap_compose. apply list_fmap_ext. now intros ? [] ?.
Qed.

Lemma restore_fromEntries {A} (f : A -> A) (m0 m : gmap Z A) :
  restore (prod_map id f <$> Object_fromEntries m0) m = (f <$> m0) ∪ m.
Proof.
  unfold Object_fromEntries.
  rewrite restore_members by apply NoDup_fst_map_to_list.
  now rewrite list_to_map_fmap, list_to_map_to_list.
Qed.

Lemma restore_fromEntries_id {A} (m0 m : gmap Z A) :
  restore (Object_fromEntries m0) m = m0 ∪ m.
Proof.
  rewrite <- (map_fmap_id m0) at 2. rewrite <- restore_fromEntries.
  f_equal. rewrite <- (list_fmap_id (Object_fromEntries m0)) at 1.
  apply list_fmap_ext. now intros ? [] ?.
Qed.

Lemma JSON_device_comparable (s : DeviceState) :
  comparable s -> JSON_device s = s.
Proof.
  intros [Hp Ht]. destruct s as [? ? ? p t ? ? ? ? ? ? ? ?].
  unfold JSON_device. simpl in *.
  destruct p, t; try congruence; reflexivity.
Qed.

End Snapshot.

Section Reload.

Implicit Types (r : DeviceRegistry) (d : Disk).

Lemma load_found r d data :
  files d !! persistPath r = Some data ->
  load r d = set_scenes (restore (pd_scenes data) (scenes r))
               (set_devices (restore (pd_devices data) (devices r)) r).
Proof.
  intros H. unfold load, fs_existsSync. simpl. rewrite H.
  rewrite (bool_decide_eq_true_2 (is_Some (Some data))) by eauto.
  now rewrite orb_true_r.
Qed.

End Reload.

(** X9.  Persisting to a disk on which the data directory is there or can
    be created and the write succeeds, and then starting a new registry
    from that disk: the call returns, the snapshot file holds the whole
    document, the dirty flag is cleared, and the new registry is clean and
    has the same scenes and the same node ids, the ids being integers that
    a double holds exactly.  A device whose percentages are numbers comes
    back as it was stored; a percentage that was [NaN] comes back as
    [null], since JSON has no [NaN]. *)
Theorem persist_then_reload
    (how : Persist) (now : Z) (DATA_DIR : string)
    (r : DeviceRegistry) (d : Disk) :
  persistPath r = path_join DATA_DIR PERSISTENCE_FILE ->
  safe_keys (devices r) -> safe_keys (scenes r) ->
  how = by_save \/ dirty r = true ->
  present (path_dirname (persistPath r)) d = true \/ creatable d = true ->
  writable d = true ->
  let r' := (persist how now r d).1.1 in
  let d' := (persist how now r d).1.2 in
  let reloaded := DeviceRegistry_new DATA_DIR d' in
  (persist how now r d).2 = returns /\
  files d' !! persistPath r = Some (snapshot now r) /\
  dirty r' = false /\
  devices r' = devices r /\
  devices reloaded = JSON_device <$> devices r /\
  scenes reloaded = scenes r /\
  dirty reloaded = false /\
  (forall k s, getDevice k r = Some s -> comparable s ->
     getDevice k reloaded = Some s) /\
  (forall k s, getDevice k r = Some s -> position s = NaN ->
     exists s', getDevice k reloaded = Some s' /\ position s' = Null).
Proof.
  intros Hpath _ _ Hhow Hdir Hw. cbv zeta.
  destruct (persist_cases how now r d)
    as (r0 & Hdev & Hsc & Hp & _ & _ & Hsave & _).
  rewrite (Hsave Hhow).
  destruct (save_outcome now r0 d) as (Hcompl & Hreg & Hfiles).
  cbv zeta in Hcompl, Hreg, Hfiles.
  assert (snapshot now r0 = snapshot now r) as Hsnap
    by (unfold snapshot; now rewrite Hdev, Hsc).
  assert (present (path_dirname (persistPath r)) d || creatable d = true)
    as Hreached by (destruct Hdir as [-> | ->]; [reflexivity|
                    apply orb_true_r]).
  rewrite Hp, Hreached in Hcompl, Hreg, Hfiles.
  simpl in Hreg, Hfiles. rewrite Hw in Hreg, Hfiles. rewrite Hsnap in Hfiles.
  assert (files (save now r0 d).1.2 !! persistPath r = Some (snapshot now r))
    as Hfile by (rewrite Hfiles; apply lookup_insert_eq).
  assert (devices (DeviceRegistry_new DATA_DIR (save now r0 d).1.2) =
          JSON_device <$> devices r) as Hback.
  { unfold DeviceRegistry_new.
    rewrite (load_found (new_registry DATA_DIR) _ (snapshot now r))
      by (change (persistPath (new_registry DATA_DIR))
            with (path_join DATA_DIR PERSISTENCE_FILE);
          now rewrite <- Hpath).
    unfold new_registry, snapshot, JSON_stringify. simpl.
    now rewrite restore_fromEntries, (right_id_L ∅ (∪)). }
  split; [exact Hcompl|]. split; [exact Hfile|].
  rewrite Hreg. simpl.
  split; [reflexivity|]. split; [exact Hdev|]. split; [exact Hback|].
  split; [|split; [|split]].
  - unfold DeviceRegistry_new.
    rewrite (load_found (new_registry DATA_DIR) _ (snapshot now r))
      by (change (persistPath (new_registry DATA_DIR))
            with (path_join DATA_DIR PERSISTENCE_FILE);
          now rewrite <- Hpath).
    unfold new_registry, snapshot, JSON_stringify. simpl.
    now rewrite restore_fromEntries_id, (right_id_L ∅ (∪)).
  - unfold DeviceRegistry_new.
    rewrite (load_found (new_registry DATA_DIR) _ (snapshot now r))
      by (change (persistPath (new_registry DATA_DIR))
            with (path_join DATA_DIR PERSISTENCE_FILE);
          now rewrite <- Hpath).
    reflexivity.
  - intros k s Hs Hc. unfold getDevice in *.
    rewrite Hback, lookup_fmap, Hs. simpl.
    now rewrite JSON_device_comparable.
  - intros k s Hs Hnan. unfold getDevice in *.
    exists (JSON_device s). rewrite Hback, lookup_fmap, Hs.
    split; [reflexivity|]. simpl. now rewrite Hnan.
Qed.

Lemma persist_then_reload_witness :
  let r := (updateDevices [kitchen; skylight] (new_registry LBPDATA)).1 in
  let reloaded :=
    DeviceRegistry_new LBPDATA (persist by_flush 5000 r empty_disk).1.2 in
  getDevice 0 reloaded = Some kitchen /\
  exists s', getDevice 2 reloaded = Some s' /\ position s' = Null.
Proof.
  intros r reloaded.
  destruct (persist_then_reload by_flush 5000 LBPDATA r empty_disk)
    as (_ & _ & _ & _ & _ & _ & _ & Hnum & Hnan);
    [reflexivity
     | unfold safe_keys; apply (bool_decide_unpack _); vm_compute; exact I
     | unfold safe_keys; apply (bool_decide_unpack _); vm_compute; exact I
     | right; reflexivity | right; reflexivity | reflexivity|].
  split.
  - apply Hnum; [reflexivity | split; discriminate].
  - apply (Hnan 2 skylight); reflexivity.
Defined.

(** X29.  [updateDevice] with a previous entry emits [deviceStateChanged]
    exactly when [hasStateChanged] sees a change, that is, unless the six
    semantic fields are equal and neither percentage is [NaN].  When one of
    the six fields differs, or a percentage is [NaN], the state is stored,
    the registry is marked dirty and exactly one event carries the previous
    and the current state; when the six fields are equal and both
    percentages are numbers the call changes nothing.  Without a previous
    entry the event is always emitted, with [previousState] absent. *)
Theorem updateDevice_emits_iff_changed
    (d : DeviceState) (r : DeviceRegistry) :
  (forall prev, devices r !! nodeId d = Some prev ->
     ((exists e, deviceStateChanged e ∈ (updateDevice d r).2) <->
      ~ (semantic_fields_equal prev d /\ comparable d)) /\
     (~ semantic_fields_equal prev d \/ has_NaN d = true ->
      (updateDevice d r).2 =
        [deviceStateChanged (mkChange (nodeId d) (Some prev) d)] /\
      dirty (updateDevice d r).1 = true /\
      getDevice (nodeId d) (updateDevice d r).1 = Some d) /\
     (semantic_fields_equal prev d -> comparable d ->
      updateDevice d r = (r, []))) /\
  (devices r !! nodeId d = None ->
     (updateDevice d r).2 =
       [deviceStateChanged (mkChange (nodeId d) None d)] /\
     dirty (updateDevice d r).1 = true /\
     getDevice (nodeId d) (updateDevice d r).1 = Some d).
Proof.
  split.
  - intros prev Hprev. unfold updateDevice, getDevice. rewrite Hprev.
    destruct (hasStateChanged prev d) eqn:E; simpl.
    + pose proof E as E'. apply hasStateChanged_true in E'.
      split; [|split]; [| |tauto].
      * split; [tauto|]. intros _. eexists. apply list_elem_of_singleton.
        reflexivity.
      * intros _. split; [reflexivity|].
        split; [apply markDirty_dirty|].
        rewrite markDirty_devices. apply lookup_insert_eq.
    + pose proof E as E'. apply hasStateChanged_false in E' as [Heq Hc].
      split; [|split]; [| |reflexivity].
      * split; [|tauto]. intros [e He]. inversion He.
      * intros [Hne | Hnan]; [contradiction|].
        apply comparable_has_NaN in Hc. congruence.
  - intros Hnone. unfold updateDevice, getDevice. rewrite Hnone. simpl.
    split; [reflexivity|]. split; [apply markDirty_dirty|].
    rewrite markDirty_devices. apply lookup_insert_eq.
Qed.

Lemma updateDevice_emits_iff_changed_witness :
  updateDevice kitchen_later ((updateDevice kitchen (new_registry LBPDATA)).1)
  = ((updateDevice kitchen (new_registry LBPDATA)).1, []) /\
  (updateDevice kitchen (new_registry LBPDATA)).2 =
    [deviceStateChanged (mkChange 0 None kitchen)].
Proof.
  split.
  - apply (proj1 (updateDevice_emits_iff_changed kitchen_later
                    ((updateDevice kitchen (new_registry LBPDATA)).1))
             kitchen).
    + reflexivity.
    + repeat split.
    + split; discriminate.
  - apply (proj2 (updateDevice_emits_iff_changed kitchen
                    (new_registry LBPDATA))).
    reflexivity.
Defined.
